(** * Structural diff of JSON-like trees: [validate/json_diff.py]

    A shallow embedding of [diff_json], [DiffConfig] and
    [prepare_diff_input], and the properties of the comparison and of the
    preparation pass that the specification states. *)

From Stdlib Require Import ZArith List String Ascii Bool DecimalString.
From Stdlib Require Import Permutation.
Import ListNotations.
Local Open Scope string_scope.
Local Open Scope Z_scope.
Set Warnings "-register-all".

(** ** Python values *)

(** A Python [float]: an IEEE-754 double is a NaN, an infinity, a signed zero
    or [(-1)^neg * m * 2^e].  Containers ([dict], [set]) test object identity
    before [==], which is observable on NaN only ([nan == nan] is false but
    [nan is nan] is true), so a NaN carries the identity [obj] of its
    object. *)
Inductive float : Type :=
| F_nan (obj : nat)
| F_inf (neg : bool)
| F_zero (neg : bool)
| F_finite (neg : bool) (m : positive) (e : Z).

(** The hashable values that reach this module: [None], [bool], [int],
    [float] and [str]. *)
Inductive atom : Type :=
| ANone
| ABool (b : bool)
| AInt (z : Z)
| AFloat (f : float)
| AStr (s : string).

(** Raw and prepared data.  A [dict] is kept in insertion order (which
    [str] shows); a [set] is the list of its elements. *)
Inductive value : Type :=
| VAtom (a : atom)
| VDict (items : list (atom * value))
| VSet (elems : list atom)
| VList (elems : list value).

(** [type(x)] *)
Inductive pytype : Type :=
| TNoneType | TBool | TInt | TFloat | TStr | TDict | TSet | TList.

Definition atom_type (a : atom) : pytype :=
  match a with
  | ANone => TNoneType
  | ABool _ => TBool
  | AInt _ => TInt
  | AFloat _ => TFloat
  | AStr _ => TStr
  end.

Definition type_of (v : value) : pytype :=
  match v with
  | VAtom a => atom_type a
  | VDict _ => TDict
  | VSet _ => TSet
  | VList _ => TList
  end.

Definition pytype_eqb (s t : pytype) : bool :=
  match s, t with
  | TNoneType, TNoneType | TBool, TBool | TInt, TInt | TFloat, TFloat
  | TStr, TStr | TDict, TDict | TSet, TSet | TList, TList => true
  | _, _ => false
  end.

(** [isinstance(x, (int, float, str))]; [bool] is a subclass of [int]. *)
Definition is_scalar_atom (a : atom) : bool :=
  match a with
  | ANone => false
  | _ => true
  end.

Definition is_scalar (v : value) : bool :=
  match v with
  | VAtom a => is_scalar_atom a
  | _ => false
  end.

(** ** Equality of hashable values *)

(** Python compares numbers of different types by their exact value:
    [1 == 1.0 == True].  [number] is that value in normal form (odd
    mantissa). *)
Inductive number : Type :=
| NZero
| NFin (neg : bool) (m : positive) (e : Z)
| NInf (neg : bool).

Fixpoint strip (m : positive) (e : Z) : positive * Z :=
  match m with
  | xO q => strip q (e + 1)
  | _ => (m, e)
  end.

Definition nfin (neg : bool) (m : positive) (e : Z) : number :=
  let (m', e') := strip m e in NFin neg m' e'.

Definition number_of_Z (z : Z) : number :=
  match z with
  | Z0 => NZero
  | Zpos p => nfin false p 0
  | Zneg p => nfin true p 0
  end.

(** What a container compares a key by: the class of objects that are
    identical or equal to it. *)
Inductive key_class : Type :=
| KNone
| KStr (s : string)
| KNum (n : number)
| KNan (obj : nat).

Definition key_norm (a : atom) : key_class :=
  match a with
  | ANone => KNone
  | ABool b => KNum (number_of_Z (if b then 1 else 0))
  | AInt z => KNum (number_of_Z z)
  | AFloat (F_nan obj) => KNan obj
  | AFloat (F_inf neg) => KNum (NInf neg)
  | AFloat (F_zero _) => KNum NZero
  | AFloat (F_finite neg m e) => KNum (nfin neg m e)
  | AStr s => KStr s
  end.

Definition number_eqb (x y : number) : bool :=
  match x, y with
  | NZero, NZero => true
  | NFin n1 m1 e1, NFin n2 m2 e2 =>
      Bool.eqb n1 n2 && Pos.eqb m1 m2 && Z.eqb e1 e2
  | NInf n1, NInf n2 => Bool.eqb n1 n2
  | _, _ => false
  end.

Definition key_class_eqb (x y : key_class) : bool :=
  match x, y with
  | KNone, KNone => true
  | KStr s, KStr t => String.eqb s t
  | KNum n, KNum m => number_eqb n m
  | KNan i, KNan j => Nat.eqb i j
  | _, _ => false
  end.

(** [a is b or a == b], the test of [in] on a [dict], a [set] or a list. *)
Definition key_eqb (a b : atom) : bool :=
  key_class_eqb (key_norm a) (key_norm b).

Definition is_nan (a : atom) : bool :=
  match a with
  | AFloat (F_nan _) => true
  | _ => false
  end.

(** [a == b] on hashable values: a NaN equals nothing, itself included. *)
Definition atom_eq (a b : atom) : bool :=
  if is_nan a || is_nan b then false else key_eqb a b.

(** [source != destination], as [diff_json] evaluates it: on two scalars. *)
Definition py_ne (source destination : value) : bool :=
  match source, destination with
  | VAtom a, VAtom b => negb (atom_eq a b)
  | _, _ => true
  end.

(** ** Exceptions *)

Inductive exn : Type :=
| NotImplementedError
| AssertionError
| KeyError
| TypeError.

Inductive result (A : Type) : Type :=
| Ok (a : A)
| Raise (e : exn).
Arguments Ok {A} a.
Arguments Raise {A} e.

Definition bind {A B} (r : result A) (k : A -> result B) : result B :=
  match r with
  | Ok a => k a
  | Raise e => Raise e
  end.

Notation "x <- r ;; k" := (bind r (fun x => k))
  (at level 61, r at next level, right associativity).

(** ** Dictionaries and sets *)

Section Dict.
Context {V : Type}.

(** [key in d] *)
Fixpoint dict_contains (d : list (atom * V)) (key : atom) : bool :=
  match d with
  | [] => false
  | (k, _) :: rest => key_eqb key k || dict_contains rest key
  end.

(** [d.get(key, None)] *)
Fixpoint dict_get (d : list (atom * V)) (key : atom) : option V :=
  match d with
  | [] => None
  | (k, v) :: rest => if key_eqb key k then Some v else dict_get rest key
  end.

(** [d[key]] *)
Definition dict_getitem (d : list (atom * V)) (key : atom) : result V :=
  match dict_get d key with
  | Some v => Ok v
  | None => Raise KeyError
  end.

(** [d[key] = v]: an existing key keeps its place. *)
Fixpoint dict_setitem (d : list (atom * V)) (key : atom) (v : V)
  : list (atom * V) :=
  match d with
  | [] => [(key, v)]
  | (k, w) :: rest =>
      if key_eqb key k then (k, v) :: rest
      else (k, w) :: dict_setitem rest key v
  end.

(** [d.keys()] *)
Definition dict_keys (d : list (atom * V)) : list atom := map fst d.
End Dict.

(** [key in s] *)
Fixpoint set_contains (s : list atom) (key : atom) : bool :=
  match s with
  | [] => false
  | k :: rest => key_eqb key k || set_contains rest key
  end.

(** [s.add(key)] *)
Definition set_add (s : list atom) (key : atom) : list atom :=
  if set_contains s key then s else (s ++ [key])%list.

(** [set(l)] of hashable values *)
Definition set_of (l : list atom) : list atom := fold_left set_add l [].

(** [s.union(t)]: a copy of [s] with the elements of [t] added *)
Definition set_union (s t : list atom) : list atom := fold_left set_add t s.

(** [for x in l: st = body(x, st)], stopping at the first exception *)
Definition for_each {A S} (body : A -> S -> result S)
  : list A -> S -> result S :=
  fix loop (l : list A) (st : S) : result S :=
    match l with
    | [] => Ok st
    | x :: rest => st' <- body x st ;; loop rest st'
    end.

(** [k(d[key])] *)
Definition getitem_then {V A} (key : atom) (k : V -> result A)
  : list (atom * V) -> result A :=
  fix go (d : list (atom * V)) : result A :=
    match d with
    | [] => Raise KeyError
    | (k', v) :: rest => if key_eqb key k' then k v else go rest
    end.

(** ** The diff tree *)

(** [TypeDiff], [ValueDiff], [Miss] and [DictDiff]; the [side] of a [Miss]
    is the string the source passes, ['SOURCE'] or ['DESTINATION']. *)
Inductive diff : Type :=
| TypeDiff (source destination : value)
| ValueDiff (source destination : value)
| Miss (side : string) (v : value)
| DictDiff (children : list (atom * diff)).

(** [DictDiff.add_child] *)
Definition add_child (children : list (atom * diff)) (key : atom) (d : diff)
  : result (list (atom * diff)) :=
  if dict_contains children key then Raise AssertionError
  else Ok (dict_setitem children key d).

(** [DictDiff.has_diff] *)
Definition has_diff (children : list (atom * diff)) : bool :=
  Nat.ltb 0 (List.length children).

(** The end of the [dict] and [set] branches of [diff_json]. *)
Definition return_diff (children : list (atom * diff)) : option diff :=
  if has_diff children then Some (DictDiff children) else None.

(** ** [diff_json] *)

Fixpoint diff_json (source destination : value) {struct source}
  : result (option diff) :=
  if negb (pytype_eqb (type_of source) (type_of destination)) then
    Ok (Some (TypeDiff source destination))
  else
    match source with
    | VAtom a =>
        if is_scalar_atom a then
          if py_ne source destination then
            Ok (Some (ValueDiff source destination))
          else Ok None
        else Raise NotImplementedError
    | VDict s =>
        match destination with
        | VDict d =>
            children <-
              for_each
                (fun key children =>
                   if negb (dict_contains s key) then
                     v <- dict_getitem d key ;;
                     add_child children key (Miss "SOURCE" v)
                   else if negb (dict_contains d key) then
                     v <- dict_getitem s key ;;
                     add_child children key (Miss "DESTINATION" v)
                   else
                     getitem_then key
                       (fun sv =>
                          dv <- dict_getitem d key ;;
                          child_diff <- diff_json sv dv ;;
                          match child_diff with
                          | Some c => add_child children key c
                          | None => Ok children
                          end) s)
                (set_union (set_of (dict_keys s)) (set_of (dict_keys d)))
                [] ;;
            Ok (return_diff children)
        | _ => Raise TypeError (* types differ: excluded by the first test *)
        end
    | VSet s =>
        match destination with
        | VSet d =>
            children <-
              for_each
                (fun key children =>
                   if negb (set_contains s key) then
                     add_child children key (Miss "SOURCE" (VAtom key))
                   else if negb (set_contains d key) then
                     add_child children key (Miss "DESTINATION" (VAtom key))
                   else Ok children)
                (set_union s d) [] ;;
            Ok (return_diff children)
        | _ => Raise TypeError (* types differ: excluded by the first test *)
        end
    | VList _ => Raise NotImplementedError
    end.

(** ** [DiffConfig] *)

Definition _HASH_PRIMARY_KEY : string := "__HASH__".

(** The attribute [primary_key] of a [DiffConfig]: the string ["__HASH__"]
    or a list of candidate field names. *)
Inductive primary_key_attr : Type :=
| PKHash
| PKList (candidates : list atom).

Inductive DiffConfig : Type :=
| Build_DiffConfig (primary_key : primary_key_attr)
    (ignore_keys : option (list atom))
    (children : option (list (atom * DiffConfig))).

Definition primary_key (c : DiffConfig) : primary_key_attr :=
  match c with Build_DiffConfig pk _ _ => pk end.

Definition ignore_keys (c : DiffConfig) : option (list atom) :=
  match c with Build_DiffConfig _ ik _ => ik end.

Definition children (c : DiffConfig) : option (list (atom * DiffConfig)) :=
  match c with Build_DiffConfig _ _ ch => ch end.

(** The argument [primary_key] of the constructor: one value ([None] by
    default) or a list. *)
Inductive primary_key_arg : Type :=
| One (a : atom)
| Many (l : list atom).

(** [DiffConfig.__init__] *)
Definition DiffConfig_init (primary_key : primary_key_arg)
  (ignored_keys : option (list atom))
  (children : option (list (atom * DiffConfig))) : DiffConfig :=
  Build_DiffConfig
    match primary_key with
    | One (AStr s) =>
        if String.eqb s _HASH_PRIMARY_KEY then PKHash
        else PKList [AStr s]
    | One a => PKList [a]
    | Many l => PKList l
    end
    ignored_keys children.

(** The truth value of [config.primary_key]: ["__HASH__"] is a non-empty
    string, a list is true when it is not empty. *)
Definition primary_key_truthy (pk : primary_key_attr) : bool :=
  match pk with
  | PKHash => true
  | PKList [] => false
  | PKList (_ :: _) => true
  end.

(** ** Preparation *)

(** [prepare_diff_input] logs with [logging.info]: a computation takes the
    messages logged so far and returns them, extended, with its result or
    its exception. *)
Definition M (A : Type) : Type := list string -> result A * list string.

Definition ret {A} (a : A) : M A := fun log => (Ok a, log).

Definition raise {A} (e : exn) : M A := fun log => (Raise e, log).

Definition lift {A} (r : result A) : M A := fun log => (r, log).

Definition bindM {A B} (m : M A) (k : A -> M B) : M B :=
  fun log =>
    match m log with
    | (Ok a, log') => k a log'
    | (Raise e, log') => (Raise e, log')
    end.

Notation "x <~ m ;; k" := (bindM m (fun x => k))
  (at level 61, m at next level, right associativity).

(** [logging.info(msg)] *)
Definition logging_info (msg : string) : M unit :=
  fun log => (Ok tt, (log ++ [msg])%list).

Definition for_eachM {A S} (body : A -> S -> M S) : list A -> S -> M S :=
  fix loop (l : list A) (st : S) : M S :=
    match l with
    | [] => ret st
    | x :: rest => st' <~ body x st ;; loop rest st'
    end.

(** [hash(x)] succeeds on the hashable values only. *)
Definition hashable (v : value) : result atom :=
  match v with
  | VAtom a => Ok a
  | _ => Raise TypeError
  end.

(** [set(data)] for a list [data] *)
Definition set_of_list (data : list value) : result (list atom) :=
  for_each (fun x s => a <- hashable x ;; Ok (set_add s a)) data [].

(** [x in container] *)
Definition py_contains (container : value) (x : atom) : result bool :=
  match container with
  | VDict d => Ok (dict_contains d x)
  | VSet s => Ok (set_contains s x)
  | VList l =>
      Ok (existsb (fun v => match v with
                            | VAtom a => key_eqb x a
                            | _ => false
                            end) l)
  | VAtom (AStr s) =>
      match x with
      | AStr p => Ok (match String.index 0 p s with
                      | Some _ => true
                      | None => false
                      end)
      | _ => Raise TypeError
      end
  | VAtom _ => Raise TypeError
  end.

(** [container[x]] for a hashable [x] that is no integer index *)
Definition py_getitem (container : value) (x : atom) : result value :=
  match container with
  | VDict d => dict_getitem d x
  | _ => Raise TypeError
  end.

Section Prepare.
(** [str(x)], Python's rendering of a value *)
Variable py_str : value -> string.

(** The message of the duplicate diagnostic *)
Definition duplicates_message (converted kept : value) : string :=
  "Duplicates found:" ++ String "010" (py_str converted) ++ String "010" "---"
    ++ String "010" (py_str kept).

(** The key of a prepared record: lines 190-198 *)
Definition record_key (pk : primary_key_attr) (converted : value)
  : result value :=
  match pk with
  | PKHash => Ok (VAtom (AStr (py_str converted)))
  | PKList candidates =>
      (fix loop (l : list atom) : result value :=
         match l with
         | [] => Ok (VAtom ANone)
         | primary_key :: rest =>
             found <- py_contains converted primary_key ;;
             if found then py_getitem converted primary_key
             else loop rest
         end) candidates
  end.

(** One turn of the loop over a list of mappings: lines 189-204 *)
Definition record_step (prep : value -> M value) (pk : primary_key_attr)
  (inner : value) (result : list (atom * value)) : M (list (atom * value)) :=
  converted <~ prep inner ;;
  key <~ lift (k <- record_key pk converted ;; hashable k) ;;
  if negb (dict_contains result key) then
    ret (dict_setitem result key converted)
  else
    kept <~ lift (dict_getitem result key) ;;
    _ <~ logging_info (duplicates_message converted kept) ;;
    ret result.

Fixpoint prepare_diff_input (data : value) (config : option DiffConfig)
  {struct data} : M value :=
  match data with
  | VList elems =>
      match elems with
      | [] => ret (VDict [])
      | first :: _ =>
          if is_scalar first then
            s <~ lift (set_of_list elems) ;; ret (VSet s)
          else if pytype_eqb (type_of first) TDict then
            match config with
            | Some cfg =>
                if primary_key_truthy (primary_key cfg) then
                  result <~
                    for_eachM
                      (record_step
                         (fun inner => prepare_diff_input inner config)
                         (primary_key cfg))
                      elems [] ;;
                  ret (VDict result)
                else raise AssertionError
            | None => raise AssertionError
            end
          else raise NotImplementedError
      end
  | VDict items =>
      match items with
      | [] => ret (VDict [])
      | _ :: _ =>
          result <~
            for_eachM
              (fun (item : atom * value) result =>
                 let (key, value) := item in
                 if match config with
                    | Some cfg =>
                        match ignore_keys cfg with
                        | Some ((_ :: _) as ik) => set_contains ik key
                        | _ => false
                        end
                    | None => false
                    end
                 then ret result
                 else
                   let child_config :=
                     match config with
                     | Some cfg =>
                         match children cfg with
                         | Some ((_ :: _) as ch) => dict_get ch key
                         | _ => None
                         end
                     | None => None
                     end in
                   converted <~ prepare_diff_input value child_config ;;
                   ret (dict_setitem result key converted))
              items [] ;;
          ret (VDict result)
      end
  | VAtom a =>
      if is_scalar_atom a then ret data else raise NotImplementedError
  | VSet _ => raise NotImplementedError
  end.

(** The body of the loop of line 188 under the config [cfg] *)
Definition record_turn (cfg : DiffConfig) (inner : value)
  (result : list (atom * value)) : M (list (atom * value)) :=
  record_step (fun inner => prepare_diff_input inner (Some cfg))
    (primary_key cfg) inner result.
End Prepare.

(** ** Induction on nested values and diffs *)

Section ValueInd.
Variable P : value -> Prop.
Hypothesis HAtom : forall a, P (VAtom a).
Hypothesis HDict :
  forall items, Forall (fun kv => P (snd kv)) items -> P (VDict items).
Hypothesis HSet : forall elems, P (VSet elems).
Hypothesis HList : forall elems, Forall P elems -> P (VList elems).

Fixpoint value_nested_ind (v : value) : P v :=
  match v with
  | VAtom a => HAtom a
  | VDict items =>
      HDict items
        ((fix go (l : list (atom * value))
            : Forall (fun kv => P (snd kv)) l :=
            match l with
            | [] => Forall_nil _
            | kv :: rest =>
                Forall_cons kv (value_nested_ind (snd kv)) (go rest)
            end) items)
  | VSet elems => HSet elems
  | VList elems =>
      HList elems
        ((fix go (l : list value) : Forall P l :=
            match l with
            | [] => Forall_nil _
            | x :: rest => Forall_cons x (value_nested_ind x) (go rest)
            end) elems)
  end.
End ValueInd.

(** ** A rendering for the examples *)

(** [str] is a parameter of the preparation.  The examples instantiate it
    with [simple_str], which is Python's [str] on [None], booleans,
    integers, NaN, infinities, zeros, strings without quotes or escapes, and
    on the dicts and lists of those; a set is shown in the order of the
    model, and the other floats are out of its scope. *)
Definition repr_atom (a : atom) : string :=
  match a with
  | ANone => "None"
  | ABool true => "True"
  | ABool false => "False"
  | AInt z => NilZero.string_of_int (Z.to_int z)
  | AFloat (F_nan _) => "nan"
  | AFloat (F_inf false) => "inf"
  | AFloat (F_inf true) => "-inf"
  | AFloat (F_zero false) => "0.0"
  | AFloat (F_zero true) => "-0.0"
  | AFloat (F_finite _ _ _) => "<float>"
  | AStr s => "'" ++ s ++ "'"
  end.

Fixpoint repr (v : value) : string :=
  match v with
  | VAtom a => repr_atom a
  | VDict items =>
      "{" ++ String.concat ", "
               (map (fun kv => repr_atom (fst kv) ++ ": " ++ repr (snd kv))
                  items) ++ "}"
  | VSet [] => "set()"
  | VSet elems => "{" ++ String.concat ", " (map repr_atom elems) ++ "}"
  | VList elems => "[" ++ String.concat ", " (map repr elems) ++ "]"
  end.

Definition simple_str (v : value) : string :=
  match v with
  | VAtom (AStr s) => s
  | _ => repr v
  end.

(** ** Predicates of the specification *)

(** Every [DictDiff] node of a diff tree, the tree itself and its children
    at any depth, holds at least one child. *)
Fixpoint nonempty_nodes (d : diff) : bool :=
  match d with
  | DictDiff [] => false
  | DictDiff ((_ :: _) as ch) =>
      forallb (fun kc => nonempty_nodes (snd kc)) ch
  | _ => true
  end.

(** The loop body of the [dict] branch of [diff_json], lines 105-112, with
    [source[key]] and [destination[key]] read before the recursive call. *)
Definition diff_dict_key (s d : list (atom * value)) (key : atom)
  (children : list (atom * diff)) : result (list (atom * diff)) :=
  if negb (dict_contains s key) then
    v <- dict_getitem d key ;;
    add_child children key (Miss "SOURCE" v)
  else if negb (dict_contains d key) then
    v <- dict_getitem s key ;;
    add_child children key (Miss "DESTINATION" v)
  else
    sv <- dict_getitem s key ;;
    dv <- dict_getitem d key ;;
    child_diff <- diff_json sv dv ;;
    match child_diff with
    | Some c => add_child children key c
    | None => Ok children
    end.

(** The loop body of the [set] branch, lines 118-121. *)
Definition diff_set_key (s d : list atom) (key : atom)
  (children : list (atom * diff)) : result (list (atom * diff)) :=
  if negb (set_contains s key) then
    add_child children key (Miss "SOURCE" (VAtom key))
  else if negb (set_contains d key) then
    add_child children key (Miss "DESTINATION" (VAtom key))
  else Ok children.

(** No two elements of the list are the same key. *)
Fixpoint unique_keys (l : list atom) : bool :=
  match l with
  | [] => true
  | k :: rest => negb (set_contains rest k) && unique_keys rest
  end.

(** The canonical values of the specification: a scalar ([int], [float] or
    [str]), a mapping with unique keys and canonical values, or a set of
    unique scalars. *)
Fixpoint canonical (v : value) : bool :=
  match v with
  | VAtom a => is_scalar_atom a
  | VDict items =>
      unique_keys (dict_keys items)
      && forallb (fun kv => canonical (snd kv)) items
  | VSet elems => unique_keys elems && forallb is_scalar_atom elems
  | VList _ => false
  end.

(** No scalar compared by [!=] is a NaN: the scalar itself, or a value of
    a mapping at any depth.  (Keys and set elements are compared by
    identity first and may be NaN.) *)
Fixpoint nan_free (v : value) : bool :=
  match v with
  | VAtom a => negb (is_nan a)
  | VDict items => forallb (fun kv => nan_free (snd kv)) items
  | VSet _ => true
  | VList elems => forallb nan_free elems
  end.

(** The child that a result of [diff_json] records for [key], if any. *)
Definition child_of (r : option diff) (key : atom) : option diff :=
  match r with
  | Some (DictDiff ch) => dict_get ch key
  | _ => None
  end.

(** The classification of a key that the specification gives for two
    mappings (4.2, step 3): missing from the destination, missing from the
    source, or the recursive diff of the two values. *)
Definition spec_child (s d : list (atom * value)) (key : atom)
  : result (option diff) :=
  match dict_get s key, dict_get d key with
  | Some sv, Some dv => diff_json sv dv
  | Some sv, None => Ok (Some (Miss "DESTINATION" sv))
  | None, Some dv => Ok (Some (Miss "SOURCE" dv))
  | None, None => Ok None
  end.

(** ** Values of the examples *)

Definition int (z : Z) : value := VAtom (AInt z).
Definition str (s : string) : value := VAtom (AStr s).
Definition nan : value := VAtom (AFloat (F_nan 0)).

(** [{"id": id, "v": v}] *)
Definition record (id : Z) (v : string) : value :=
  VDict [(AStr "id", int id); (AStr "v", str v)].

(** [{"a": 1, "b": {"c": 2}, "k": 5}] and [{"b": {"c": 3}, "k": 5, "z": "w"}] *)
Definition left_items : list (atom * value) :=
  [(AStr "a", int 1); (AStr "b", VDict [(AStr "c", int 2)]); (AStr "k", int 5)].
Definition right_items : list (atom * value) :=
  [(AStr "b", VDict [(AStr "c", int 3)]); (AStr "k", int 5); (AStr "z", str "w")].

(** [DiffConfig(primary_key="id")] *)
Definition by_id : DiffConfig := DiffConfig_init (One (AStr "id")) None None.

(** [DiffConfig(primary_key=["uid", "id"], ignored_keys={"uid"})] *)
Definition by_uid_or_id : DiffConfig :=
  DiffConfig_init (Many [AStr "uid"; AStr "id"]) (Some [AStr "uid"]) None.

(** [DiffConfig()]: the primary key is left at its default, [None]. *)
Definition no_primary_key : DiffConfig := DiffConfig_init (One ANone) None None.

(** ** Further predicates *)

(** The child that the [set] branch of [diff_json] records for an element
    [key] of the union, lines 118-121. *)
Definition set_child (s d : list atom) (key : atom) : option diff :=
  if negb (set_contains s key) then Some (Miss "SOURCE" (VAtom key))
  else if negb (set_contains d key) then Some (Miss "DESTINATION" (VAtom key))
  else None.

(** What [prepare_diff_input] returns: a scalar, a mapping with unique keys
    whose values are of that kind, or a set of unique hashable values (which
    may hold [None]: [set(data)] takes whatever follows a scalar first
    element). *)
Fixpoint prepared (v : value) : bool :=
  match v with
  | VAtom a => is_scalar_atom a
  | VDict items =>
      unique_keys (dict_keys items)
      && forallb (fun kv => prepared (snd kv)) items
  | VSet elems => unique_keys elems
  | VList _ => false
  end.

(** Every set in the value is a set: no element twice.  (Any Python value
    is of that kind.) *)
Fixpoint sets_unique (v : value) : bool :=
  match v with
  | VAtom _ => true
  | VDict items => forallb (fun kv => sets_unique (snd kv)) items
  | VSet elems => unique_keys elems
  | VList elems => forallb sets_unique elems
  end.

(** Two values are the same: scalars of one type that are equal, mappings
    with the same keys and the same values under them, sets with the same
    elements. *)
Fixpoint same_value (s d : value) : bool :=
  match s, d with
  | VAtom a, VAtom b => pytype_eqb (atom_type a) (atom_type b) && atom_eq a b
  | VDict si, VDict di =>
      forallb (fun kv => match dict_get di (fst kv) with
                         | Some dv => same_value (snd kv) dv
                         | None => false
                         end) si
      && forallb (fun kv => dict_contains si (fst kv)) di
  | VSet se, VSet de =>
      forallb (set_contains de) se && forallb (set_contains se) de
  | _, _ => false
  end.

(** ** The loop over a mapping *)

(** [config and config.ignore_keys and key in config.ignore_keys],
    line 215 *)
Definition ignored (config : option DiffConfig) (key : atom) : bool :=
  match config with
  | Some cfg =>
      match ignore_keys cfg with
      | Some ((_ :: _) as ik) => set_contains ik key
      | _ => false
      end
  | None => false
  end.

(** [child_config], lines 218-220 *)
Definition child_config (config : option DiffConfig) (key : atom)
  : option DiffConfig :=
  match config with
  | Some cfg =>
      match children cfg with
      | Some ((_ :: _) as ch) => dict_get ch key
      | _ => None
      end
  | None => None
  end.

(** The body of the loop of line 214 *)
Definition dict_turn (py_str : value -> string) (config : option DiffConfig)
  (item : atom * value) (result : list (atom * value))
  : M (list (atom * value)) :=
  let (key, value) := item in
  if ignored config key then ret result
  else
    converted <~ prepare_diff_input py_str value (child_config config key) ;;
    ret (dict_setitem result key converted).

(** A value without lists and sets: a scalar, or a mapping with unique keys
    of such values. *)
Fixpoint plain (v : value) : bool :=
  match v with
  | VAtom a => is_scalar_atom a
  | VDict items =>
      unique_keys (dict_keys items) && forallb (fun kv => plain (snd kv)) items
  | _ => false
  end.

(** ** The log of the preparation *)

(** [log'] is [log] followed by duplicate diagnostics only. *)
Definition log_extends (py_str : value -> string) (log log' : list string)
  : Prop :=
  exists extra,
    log' = (log ++ extra)%list
    /\ Forall (fun m => exists converted kept,
                   m = duplicates_message py_str converted kept) extra.

(** ** Rendering and printing of a diff *)

Definition newline : string := String "010" "".

(** [str(type(x))] *)
Definition type_str (t : pytype) : string :=
  match t with
  | TNoneType => "<class 'NoneType'>"
  | TBool => "<class 'bool'>"
  | TInt => "<class 'int'>"
  | TFloat => "<class 'float'>"
  | TStr => "<class 'str'>"
  | TDict => "<class 'dict'>"
  | TSet => "<class 'set'>"
  | TList => "<class 'list'>"
  end.

(** [_diff_message], on the renderings of [source] and [destination] *)
Definition _diff_message (hint source destination : string) : string :=
  hint ++ ":" ++ newline ++ "< " ++ source ++ newline ++ "---" ++ newline
    ++ "> " ++ destination.

(** The records of the log: [logging.info] and [logging.debug] *)
Inductive level : Type := INFO | DEBUG.

Definition records : Type := list (level * string).

(** [logging.debug(msg)] and [logging.info(msg)] *)
Definition logging_debug (msg : string) (log : records)
  : result unit * records :=
  (Ok tt, (log ++ [(DEBUG, msg)])%list).

Definition logging_info_record (msg : string) (log : records)
  : result unit * records :=
  (Ok tt, (log ++ [(INFO, msg)])%list).

(** [prefix + "|" + key]: a [str] can be concatenated to a [str] only. *)
Definition concat_key (prefix : string) (key : atom) : result string :=
  match key with
  | AStr s => Ok (prefix ++ "|" ++ s)
  | _ => Raise TypeError
  end.

Definition for_eachL {A} (body : A -> records -> result unit * records)
  : list A -> records -> result unit * records :=
  fix loop (l : list A) (log : records) : result unit * records :=
    match l with
    | [] => (Ok tt, log)
    | x :: rest =>
        match body x log with
        | (Ok _, log') => loop rest log'
        | (Raise e, log') => (Raise e, log')
        end
    end.

(** [k(d[key])], in a computation that logs *)
Definition getitem_thenL {V} (key : atom)
  (k : V -> records -> result unit * records)
  : list (atom * V) -> records -> result unit * records :=
  fix go (d : list (atom * V)) : records -> result unit * records :=
    match d with
    | [] => fun log => (Raise KeyError, log)
    | (k', v) :: rest => if key_eqb key k' then k v else go rest
    end.

Section Render.
(** [str(x)] on values and [sorted(l)] on keys, Python's builtins *)
Variable py_str : value -> string.
Variable sorted : list atom -> result (list atom).

(** [TypeDiff.__str__] *)
Definition TypeDiff_str (source destination : value) : string :=
  _diff_message "TYPE_MISMATCH"
    (type_str (type_of source) ++ "':'" ++ py_str source)
    (type_str (type_of destination) ++ "':'" ++ py_str destination).

(** [ValueDiff.__str__] *)
Definition ValueDiff_str (source destination : value) : string :=
  _diff_message "VALUE_MISMATCH" (py_str source) (py_str destination).

(** [Miss.__str__] *)
Definition Miss_str (side : string) (v : value) : string :=
  let hint := "MISS_" ++ side ++ ":" ++ newline in
  let value := if String.eqb side "DESTINATION" then "< " ++ py_str v
               else "> " ++ py_str v in
  hint ++ value.

(** [str(diff)]: the [__str__] of the class of [diff].  A [DictDiff]
    renders the dict of the renderings of its children, built in the order
    of the sorted keys. *)
Fixpoint diff_str (d : diff) : result string :=
  match d with
  | TypeDiff source destination => Ok (TypeDiff_str source destination)
  | ValueDiff source destination => Ok (ValueDiff_str source destination)
  | Miss side v => Ok (Miss_str side v)
  | DictDiff ch =>
      keys <- sorted (dict_keys ch) ;;
      rendered <-
        for_each
          (fun key acc =>
             getitem_then key
               (fun child =>
                  s <- diff_str child ;;
                  Ok (dict_setitem acc key (VAtom (AStr s)))) ch)
          keys [] ;;
      Ok (py_str (VDict rendered))
  end.

(** [__eq__], the same in the four classes: [str(self) == str(other)] *)
Definition diff_eq (self other : diff) : result bool :=
  s <- diff_str self ;;
  o <- diff_str other ;;
  Ok (String.eqb s o).

(** [print_diff] on a diff object, which is never false: lines 233-238 *)
Fixpoint print_node (d : diff) (prefix : string) {struct d}
  : records -> result unit * records :=
  match d with
  | TypeDiff source destination =>
      logging_debug
        (prefix ++ ":" ++ TypeDiff_str source destination ++ newline)
  | ValueDiff source destination =>
      logging_debug
        (prefix ++ ":" ++ ValueDiff_str source destination ++ newline)
  | Miss side v =>
      logging_debug (prefix ++ ":" ++ Miss_str side v ++ newline)
  | DictDiff ch =>
      fun log =>
        match sorted (dict_keys ch) with
        | Raise e => (Raise e, log)
        | Ok keys =>
            for_eachL
              (fun key =>
                 getitem_thenL key
                   (fun value log' =>
                      match concat_key prefix key with
                      | Raise e => (Raise e, log')
                      | Ok p => print_node value p log'
                      end) ch)
              keys log
        end
  end.

(** The body of the loop of [print_diff], lines 237-238 *)
Definition print_child (ch : list (atom * diff)) (prefix : string) (key : atom)
  : records -> result unit * records :=
  getitem_thenL key
    (fun value log' =>
       match concat_key prefix key with
       | Raise e => (Raise e, log')
       | Ok p => print_node value p log'
       end) ch.

(** [print_diff] *)
Definition print_diff (diff : option diff) (prefix : string)
  : records -> result unit * records :=
  match diff with
  | None => logging_info_record "No diff found."
  | Some d => print_node d prefix
  end.

(** The lines that [print_diff] writes for the leaves of a diff, in the
    order of the children. *)
Fixpoint leaf_lines (d : diff) (prefix : string) : records :=
  match d with
  | TypeDiff source destination =>
      [(DEBUG, prefix ++ ":" ++ TypeDiff_str source destination ++ newline)]
  | ValueDiff source destination =>
      [(DEBUG, prefix ++ ":" ++ ValueDiff_str source destination ++ newline)]
  | Miss side v => [(DEBUG, prefix ++ ":" ++ Miss_str side v ++ newline)]
  | DictDiff ch =>
      flat_map (fun kc =>
                  match fst kc with
                  | AStr s => leaf_lines (snd kc) (prefix ++ "|" ++ s)
                  | _ => []
                  end) ch
  end.
End Render.

Definition is_str (a : atom) : bool :=
  match a with
  | AStr _ => true
  | _ => false
  end.

(** Every key of the diff, at any depth, is a string, and no [DictDiff] has
    a key twice. *)
Fixpoint str_keys (d : diff) : bool :=
  match d with
  | DictDiff ch =>
      unique_keys (dict_keys ch)
      && forallb (fun kc => is_str (fst kc) && str_keys (snd kc)) ch
  | _ => true
  end.

(** A sort for the examples: Python's [sorted] on a list of strings and on
    a list of integers; on another list of two or more it raises
    [TypeError], as Python does when the list mixes strings and numbers or
    holds [None] (floats and booleans are out of its scope). *)
Definition atom_le (a b : atom) : option bool :=
  match a, b with
  | AStr s, AStr t => Some (String.leb s t)
  | AInt x, AInt y => Some (Z.leb x y)
  | _, _ => None
  end.

Fixpoint sorted_insert (a : atom) (l : list atom) : result (list atom) :=
  match l with
  | [] => Ok [a]
  | b :: rest =>
      match atom_le a b with
      | None => Raise TypeError
      | Some true => Ok (a :: b :: rest)
      | Some false => r <- sorted_insert a rest ;; Ok (b :: r)
      end
  end.

Fixpoint sorted_simple (l : list atom) : result (list atom) :=
  match l with
  | [] => Ok []
  | a :: rest => r <- sorted_simple rest ;; sorted_insert a r
  end.

Section DiffInd.
Variable P : diff -> Prop.
Hypothesis HType : forall s d, P (TypeDiff s d).
Hypothesis HValue : forall s d, P (ValueDiff s d).
Hypothesis HMiss : forall side v, P (Miss side v).
Hypothesis HDict :
  forall ch, Forall (fun kc => P (snd kc)) ch -> P (DictDiff ch).

Fixpoint diff_nested_ind (d : diff) : P d :=
  match d with
  | TypeDiff s d => HType s d
  | ValueDiff s d => HValue s d
  | Miss side v => HMiss side v
  | DictDiff ch =>
      HDict ch
        ((fix go (l : list (atom * diff)) : Forall (fun kc => P (snd kc)) l :=
            match l with
            | [] => Forall_nil _
            | kc :: rest => Forall_cons kc (diff_nested_ind (snd kc)) (go rest)
            end) ch)
  end.
End DiffInd.

(** Every key of a mapping and every element of a set in the value, at any
    depth, is a string. *)
Fixpoint str_keyed (v : value) : bool :=
  match v with
  | VAtom _ => true
  | VDict items =>
      forallb (fun kv => is_str (fst kv) && str_keyed (snd kv)) items
  | VSet elems => forallb is_str elems
  | VList _ => true
  end.

(** ** Further values of the examples *)

(** [diff_json] of the two mappings [left_items] and [right_items] *)
Definition left_right_diff : diff :=
  DictDiff
    [(AStr "a", Miss "DESTINATION" (int 1));
     (AStr "b", DictDiff [(AStr "c", ValueDiff (int 2) (int 3))]);
     (AStr "z", Miss "SOURCE" (str "w"))].

(** [diff_json] of the sets [{1, 2, 3}] and [{2, 3, 4}] *)
Definition number_set_children : list (atom * diff) :=
  [(AInt 1, Miss "DESTINATION" (int 1)); (AInt 4, Miss "SOURCE" (int 4))].

(** [{"a": 1, "s": {1, 2}}] and [{"s": {2, 1}, "a": 1}] *)
Definition one_order : value :=
  VDict [(AStr "a", int 1); (AStr "s", VSet [AInt 1; AInt 2])].
Definition other_order : value :=
  VDict [(AStr "s", VSet [AInt 2; AInt 1]); (AStr "a", int 1)].

(** [{"a": {"b": 1}, "c": "x"}] *)
Definition nested_plain : value :=
  VDict [(AStr "a", VDict [(AStr "b", int 1)]); (AStr "c", str "x")].

(** * Properties *)

(** ** Key equality is an equivalence *)

Lemma number_eqb_eq (x y : number) : number_eqb x y = true <-> x = y.
Proof.
  destruct x as [|n1 m1 e1|n1], y as [|n2 m2 e2|n2]; simpl;
    try (split; [discriminate | intros H; discriminate H || reflexivity]);
    try (split; reflexivity).
  - rewrite !andb_true_iff, Bool.eqb_true_iff, Pos.eqb_eq, Z.eqb_eq.
    split.
    + intros [[-> ->] ->]. reflexivity.
    + intros H. injection H as -> -> ->. auto.
  - rewrite Bool.eqb_true_iff. split; [intros ->; reflexivity|].
    intros H. injection H as ->. reflexivity.
Qed.

Lemma key_class_eqb_eq (x y : key_class) : key_class_eqb x y = true <-> x = y.
Proof.
  destruct x, y; simpl;
    try (split; [discriminate | intros H; discriminate H || reflexivity]);
    try (split; reflexivity).
  - rewrite String.eqb_eq. split; [intros ->; reflexivity|].
    intros H. injection H as ->. reflexivity.
  - rewrite number_eqb_eq. split; [intros ->; reflexivity|].
    intros H. injection H as ->. reflexivity.
  - rewrite Nat.eqb_eq. split; [intros ->; reflexivity|].
    intros H. injection H as ->. reflexivity.
Qed.

Lemma key_eqb_iff (a b : atom) : key_eqb a b = true <-> key_norm a = key_norm b.
Proof. apply key_class_eqb_eq. Qed.

Lemma key_eqb_refl (a : atom) : key_eqb a a = true.
Proof. apply key_eqb_iff. reflexivity. Qed.

Lemma key_eqb_sym (a b : atom) : key_eqb a b = key_eqb b a.
Proof.
  destruct (key_eqb a b) eqn:E, (key_eqb b a) eqn:F; try reflexivity.
  - apply key_eqb_iff in E. symmetry in E. apply key_eqb_iff in E. congruence.
  - apply key_eqb_iff in F. symmetry in F. apply key_eqb_iff in F. congruence.
Qed.

Lemma key_eqb_congr (a b k : atom) :
  key_eqb a b = true -> key_eqb a k = key_eqb b k.
Proof. intros H. apply key_eqb_iff in H. unfold key_eqb. rewrite H. reflexivity. Qed.

Lemma key_eqb_trans (a b c : atom) :
  key_eqb a b = true -> key_eqb b c = true -> key_eqb a c = true.
Proof. intros H1 H2. rewrite (key_eqb_congr _ _ _ H1). exact H2. Qed.

(** ** Loops and lookups *)

Lemma for_each_ext {A S} (f g : A -> S -> result S) (l : list A) :
  (forall x st, In x l -> f x st = g x st) ->
  forall st, for_each f l st = for_each g l st.
Proof.
  induction l as [|x rest IH]; intros Hfg st; simpl; [reflexivity|].
  rewrite (Hfg x st (or_introl eq_refl)).
  destruct (g x st) as [st'|e]; simpl; [|reflexivity].
  apply IH. intros y st0 Hy. apply Hfg. right. exact Hy.
Qed.

Lemma for_each_inv {A S} (body : A -> S -> result S) (I : S -> Prop)
  (l : list A) :
  (forall x st st', In x l -> I st -> body x st = Ok st' -> I st') ->
  forall st0 st, I st0 -> for_each body l st0 = Ok st -> I st.
Proof.
  induction l as [|x rest IH]; intros Hstep st0 st H0 Hrun; simpl in Hrun.
  - injection Hrun as <-. exact H0.
  - destruct (body x st0) as [st1|e] eqn:E; simpl in Hrun; [|discriminate].
    apply (IH (fun y s s' Hy => Hstep y s s' (or_intror Hy)) st1 st);
      [|exact Hrun].
    apply (Hstep x st0 st1); auto. left; reflexivity.
Qed.

Lemma getitem_then_eq {V A} (key : atom) (k : V -> result A)
  (d : list (atom * V)) :
  getitem_then key k d = (v <- dict_getitem d key ;; k v).
Proof.
  unfold dict_getitem.
  induction d as [|[k' v] rest IH]; simpl; [reflexivity|].
  destruct (key_eqb key k'); [reflexivity|exact IH].
Qed.

Lemma dict_get_In {V} (d : list (atom * V)) (key : atom) (v : V) :
  dict_get d key = Some v -> exists k, In (k, v) d /\ key_eqb key k = true.
Proof.
  induction d as [|[k' w] rest IH]; simpl; [discriminate|].
  destruct (key_eqb key k') eqn:E.
  - intros H. injection H as ->. exists k'. auto.
  - intros H. destruct (IH H) as [k [Hin Hk]]. exists k. auto.
Qed.

Lemma dict_contains_get {V} (d : list (atom * V)) (key : atom) :
  dict_contains d key = true <-> exists v, dict_get d key = Some v.
Proof.
  induction d as [|[k' w] rest IH]; simpl.
  - split; [discriminate|intros [v H]; discriminate].
  - destruct (key_eqb key k'); simpl; [|exact IH].
    split; [intros _; exists w; reflexivity|reflexivity].
Qed.

Lemma dict_contains_false_get {V} (d : list (atom * V)) (key : atom) :
  dict_contains d key = false <-> dict_get d key = None.
Proof.
  induction d as [|[k' w] rest IH]; simpl; [split; reflexivity|].
  destruct (key_eqb key k'); simpl; [|exact IH].
  split; discriminate.
Qed.

(** The [dict] and [set] branches, as the source writes them. *)
Lemma diff_json_dict (s d : list (atom * value)) :
  diff_json (VDict s) (VDict d) =
  (children <-
     for_each (diff_dict_key s d)
       (set_union (set_of (dict_keys s)) (set_of (dict_keys d))) [] ;;
   Ok (return_diff children)).
Proof.
  simpl. f_equal. apply for_each_ext. intros key ch _.
  unfold diff_dict_key. rewrite getitem_then_eq. reflexivity.
Qed.

Lemma diff_json_set (s d : list atom) :
  diff_json (VSet s) (VSet d) =
  (children <- for_each (diff_set_key s d) (set_union s d) [] ;;
   Ok (return_diff children)).
Proof. reflexivity. Qed.

Lemma diff_json_type (source destination : value) :
  pytype_eqb (type_of source) (type_of destination) = false ->
  diff_json source destination = Ok (Some (TypeDiff source destination)).
Proof. intros H. destruct source; simpl in *; rewrite H; reflexivity. Qed.

(** ** [DictDiff] nodes are never empty *)

Lemma dict_setitem_forallb {V} (P : atom * V -> bool) (d : list (atom * V))
  (key : atom) (v : V) :
  (forall k, P (k, v) = true) ->
  forallb P d = true -> forallb P (dict_setitem d key v) = true.
Proof.
  intros Hv. induction d as [|[k w] rest IH]; simpl.
  - intros _. rewrite Hv. reflexivity.
  - rewrite andb_true_iff. intros [Hk Hrest].
    destruct (key_eqb key k); simpl.
    + rewrite Hv, Hrest. reflexivity.
    + rewrite Hk, (IH Hrest). reflexivity.
Qed.

Lemma add_child_forallb (P : atom * diff -> bool) (ch ch' : list (atom * diff))
  (key : atom) (c : diff) :
  (forall k, P (k, c) = true) ->
  forallb P ch = true -> add_child ch key c = Ok ch' -> forallb P ch' = true.
Proof.
  intros Hc Hch. unfold add_child.
  destruct (dict_contains ch key); [discriminate|].
  intros H. injection H as <-. apply dict_setitem_forallb; assumption.
Qed.

Lemma return_diff_nonempty (ch : list (atom * diff)) (r : diff) :
  forallb (fun kc => nonempty_nodes (snd kc)) ch = true ->
  return_diff ch = Some r -> nonempty_nodes r = true.
Proof.
  unfold return_diff. intros Hch.
  destruct ch as [|kc rest]; [discriminate|].
  intros H. injection H as <-. exact Hch.
Qed.

Lemma diff_json_nodes_nonempty (source destination : value) (r : diff) :
  diff_json source destination = Ok (Some r) -> nonempty_nodes r = true.
Proof.
  revert destination r.
  induction source as [a|s IH|s|l _] using value_nested_ind;
    intros destination r H;
    (match type of H with
     | diff_json ?src _ = _ =>
         destruct (pytype_eqb (type_of src) (type_of destination)) eqn:Ety;
         [|rewrite (diff_json_type _ _ Ety) in H; injection H as <-;
           reflexivity]
     end).
  - simpl in H, Ety. rewrite Ety in H. simpl in H.
    destruct (is_scalar_atom a); [|discriminate].
    match type of H with (if ?c then _ else _) = _ => destruct c end;
      [|discriminate].
    injection H as <-. reflexivity.
  - destruct destination as [[]|d| |]; try discriminate Ety.
    rewrite diff_json_dict in H.
    destruct (for_each _ _ _) as [ch|e] eqn:Eloop; simpl in H; [|discriminate].
    injection H as H. apply (return_diff_nonempty ch); [|exact H].
    revert Eloop.
    apply (for_each_inv _
             (fun c => forallb (fun kc => nonempty_nodes (snd kc)) c = true));
      [|reflexivity].
    intros key c c' _ Hc. unfold diff_dict_key.
    destruct (negb (dict_contains s key)).
    { destruct (dict_getitem d key); simpl; [|discriminate].
      apply add_child_forallb; auto. }
    destruct (negb (dict_contains d key)).
    { destruct (dict_getitem s key); simpl; [|discriminate].
      apply add_child_forallb; auto. }
    unfold dict_getitem at 1.
    destruct (dict_get s key) as [sv|] eqn:Es; simpl; [|discriminate].
    destruct (dict_getitem d key) as [dv|]; simpl; [|discriminate].
    destruct (diff_json sv dv) as [[cd|]|] eqn:Ec; simpl; try discriminate.
    + apply add_child_forallb; auto. intros k0. simpl.
      destruct (dict_get_In _ _ _ Es) as [k [Hin _]].
      rewrite Forall_forall in IH. apply (IH _ Hin dv). exact Ec.
    + intros E. injection E as <-. exact Hc.
  - destruct destination as [[]| |d|]; try discriminate Ety.
    rewrite diff_json_set in H.
    destruct (for_each _ _ _) as [ch|e] eqn:Eloop; simpl in H; [|discriminate].
    injection H as H. apply (return_diff_nonempty ch); [|exact H].
    revert Eloop.
    apply (for_each_inv _
             (fun c => forallb (fun kc => nonempty_nodes (snd kc)) c = true));
      [|reflexivity].
    intros key c c' _ Hc. unfold diff_set_key.
    destruct (negb (set_contains s key));
      [apply add_child_forallb; auto|].
    destruct (negb (set_contains d key));
      [apply add_child_forallb; auto|].
    intros E. injection E as <-. exact Hc.
  - simpl in H. simpl in Ety. rewrite Ety in H. discriminate.
Qed.

Lemma return_diff_no_child (ch : list (atom * diff)) :
  (forall key, child_of (return_diff ch) key = None) -> return_diff ch = None.
Proof.
  destruct ch as [|[k c] rest]; [reflexivity|].
  intros H. specialize (H k).
  change (child_of (return_diff ((k, c) :: rest)) k)
    with (if key_eqb k k then Some c else dict_get rest k) in H.
  rewrite key_eqb_refl in H. discriminate.
Qed.

(** C1. [diff_json] never returns an empty [DictDiff]: every [DictDiff] in
    what it returns, the result itself and its children at any depth, has
    at least one child; and when the comparison of two mappings or of two
    sets leaves no key with a child, the result is [None]. *)
Theorem diff_json_no_empty_DictDiff :
  (forall source destination r,
      diff_json source destination = Ok (Some r) -> nonempty_nodes r = true)
  /\ (forall s d r,
         diff_json (VDict s) (VDict d) = Ok r ->
         (forall key, child_of r key = None) -> r = None)
  /\ (forall s d r,
         diff_json (VSet s) (VSet d) = Ok r ->
         (forall key, child_of r key = None) -> r = None).
Proof.
  split; [exact diff_json_nodes_nonempty|].
  split; intros s d r H Hall.
  - rewrite diff_json_dict in H.
    destruct (for_each _ _ _) as [ch|e]; simpl in H; [|discriminate].
    injection H as <-. apply return_diff_no_child, Hall.
  - rewrite diff_json_set in H.
    destruct (for_each _ _ _) as [ch|e]; simpl in H; [|discriminate].
    injection H as <-. apply return_diff_no_child, Hall.
Qed.

(** ** Sets of keys *)

Lemma key_eqb_congr_r (a b k : atom) :
  key_eqb a b = true -> key_eqb k a = key_eqb k b.
Proof. intros H. rewrite !(key_eqb_sym k). apply key_eqb_congr. exact H. Qed.

Lemma set_contains_congr (s : list atom) (a b : atom) :
  key_eqb a b = true -> set_contains s a = set_contains s b.
Proof.
  intros H. induction s as [|k rest IH]; simpl; [reflexivity|].
  rewrite (key_eqb_congr _ _ _ H), IH. reflexivity.
Qed.

Lemma dict_get_congr {V} (d : list (atom * V)) (a b : atom) :
  key_eqb a b = true -> dict_get d a = dict_get d b.
Proof.
  intros H. induction d as [|[k v] rest IH]; simpl; [reflexivity|].
  rewrite (key_eqb_congr _ _ _ H), IH. reflexivity.
Qed.

Lemma dict_contains_keys {V} (d : list (atom * V)) (key : atom) :
  set_contains (dict_keys d) key = dict_contains d key.
Proof.
  induction d as [|[k v] rest IH]; simpl; [reflexivity|].
  rewrite IH. reflexivity.
Qed.

Lemma set_contains_In (s : list atom) (key : atom) :
  In key s -> set_contains s key = true.
Proof.
  induction s as [|k rest IH]; simpl; [contradiction|].
  intros [->|H]; [rewrite key_eqb_refl; reflexivity|].
  rewrite (IH H). apply orb_true_r.
Qed.

Lemma set_contains_false (s : list atom) (key k : atom) :
  set_contains s key = false -> In k s -> key_eqb key k = false.
Proof.
  induction s as [|k0 rest IH]; simpl; [contradiction|].
  rewrite orb_false_iff. intros [H0 Hrest] [->|Hin]; auto.
Qed.

Lemma set_contains_app (s t : list atom) (key : atom) :
  set_contains (s ++ t) key = set_contains s key || set_contains t key.
Proof.
  induction s as [|k rest IH]; simpl; [reflexivity|].
  rewrite IH, orb_assoc. reflexivity.
Qed.

Lemma set_contains_add (s : list atom) (k key : atom) :
  set_contains (set_add s k) key = set_contains s key || key_eqb key k.
Proof.
  unfold set_add. destruct (set_contains s k) eqn:E.
  - destruct (key_eqb key k) eqn:F; [|rewrite orb_false_r; reflexivity].
    rewrite (set_contains_congr _ _ _ F), E. reflexivity.
  - rewrite set_contains_app. simpl. rewrite orb_false_r. reflexivity.
Qed.

Lemma set_contains_fold (t s : list atom) (key : atom) :
  set_contains (fold_left set_add t s) key
  = set_contains s key || set_contains t key.
Proof.
  revert s. induction t as [|k rest IH]; intros s; simpl.
  - rewrite orb_false_r. reflexivity.
  - rewrite IH, set_contains_add, orb_assoc. reflexivity.
Qed.

Lemma set_contains_union (s t : list atom) (key : atom) :
  set_contains (set_union s t) key = set_contains s key || set_contains t key.
Proof. apply set_contains_fold. Qed.

Lemma set_contains_set_of (l : list atom) (key : atom) :
  set_contains (set_of l) key = set_contains l key.
Proof. unfold set_of. rewrite set_contains_fold. reflexivity. Qed.

Lemma unique_keys_app (s : list atom) (k : atom) :
  unique_keys s = true -> set_contains s k = false ->
  unique_keys (s ++ [k]) = true.
Proof.
  induction s as [|k0 rest IH]; simpl; [reflexivity|].
  rewrite andb_true_iff, negb_true_iff, orb_false_iff.
  intros [H0 Hrest] [Hk Hk'].
  rewrite set_contains_app, H0, (IH Hrest Hk'). simpl.
  rewrite key_eqb_sym, Hk. reflexivity.
Qed.

Lemma unique_keys_add (s : list atom) (k : atom) :
  unique_keys s = true -> unique_keys (set_add s k) = true.
Proof.
  intros H. unfold set_add. destruct (set_contains s k) eqn:E; [exact H|].
  apply unique_keys_app; assumption.
Qed.

Lemma unique_keys_fold (t s : list atom) :
  unique_keys s = true -> unique_keys (fold_left set_add t s) = true.
Proof.
  revert s. induction t as [|k rest IH]; intros s H; simpl; [exact H|].
  apply IH, unique_keys_add, H.
Qed.

Lemma unique_keys_union (s t : list atom) :
  unique_keys s = true -> unique_keys (set_union s t) = true.
Proof. apply unique_keys_fold. Qed.

Lemma unique_keys_set_of (l : list atom) : unique_keys (set_of l) = true.
Proof. apply unique_keys_fold. reflexivity. Qed.

(** ** Children of a [DictDiff] *)

Lemma dict_get_setitem {V} (d : list (atom * V)) (key k : atom) (v : V) :
  dict_get (dict_setitem d key v) k
  = if key_eqb k key then Some v else dict_get d k.
Proof.
  induction d as [|[k0 w] rest IH]; simpl; [reflexivity|].
  destruct (key_eqb key k0) eqn:E; simpl.
  - rewrite (key_eqb_congr_r _ _ k E).
    destruct (key_eqb k k0); reflexivity.
  - rewrite IH. destruct (key_eqb k k0) eqn:F; [|reflexivity].
    destruct (key_eqb k key) eqn:G; [|reflexivity].
    rewrite key_eqb_sym in G. rewrite (key_eqb_trans _ _ _ G F) in E.
    discriminate.
Qed.

Lemma add_child_get (ch ch' : list (atom * diff)) (key : atom) (c : diff) :
  add_child ch key c = Ok ch' ->
  forall k, dict_get ch' k = if key_eqb k key then Some c else dict_get ch k.
Proof.
  unfold add_child. destruct (dict_contains ch key); [discriminate|].
  intros H k. injection H as <-. apply dict_get_setitem.
Qed.

Lemma add_child_ok (ch : list (atom * diff)) (key : atom) (c : diff) :
  dict_contains ch key = false ->
  add_child ch key c = Ok (dict_setitem ch key c).
Proof. intros H. unfold add_child. rewrite H. reflexivity. Qed.

Lemma set_contains_true (s : list atom) (key : atom) :
  set_contains s key = true -> exists k, In k s /\ key_eqb key k = true.
Proof.
  induction s as [|k0 rest IH]; simpl; [discriminate|].
  destruct (key_eqb key k0) eqn:E; simpl.
  - intros _. exists k0. auto.
  - intros H. destruct (IH H) as [k [Hin Hk]]. exists k. auto.
Qed.

(** The loop over the union of the keys: each turn settles the child of
    its own key and leaves the others alone. *)
Lemma for_each_children (body : atom -> list (atom * diff) ->
                                result (list (atom * diff)))
  (Q : atom -> option diff -> Prop) (keys : list atom) :
  unique_keys keys = true ->
  (forall key ch ch', In key keys -> dict_contains ch key = false ->
     body key ch = Ok ch' ->
     Q key (dict_get ch' key)
     /\ forall k, key_eqb k key = false -> dict_get ch' k = dict_get ch k) ->
  forall ch ch',
    (forall k, In k keys -> dict_contains ch k = false) ->
    for_each body keys ch = Ok ch' ->
    (forall k, In k keys -> Q k (dict_get ch' k))
    /\ (forall k, set_contains keys k = false -> dict_get ch' k = dict_get ch k).
Proof.
  induction keys as [|key rest IH]; intros Hu Hbody ch ch' Hch Hrun;
    simpl in Hrun.
  - injection Hrun as <-. split; [intros k []|reflexivity].
  - simpl in Hu. apply andb_true_iff in Hu. destruct Hu as [Hkey Hu].
    apply negb_true_iff in Hkey.
    destruct (body key ch) as [ch1|e] eqn:E; simpl in Hrun; [|discriminate].
    destruct (Hbody key ch ch1 (or_introl eq_refl)
                (Hch key (or_introl eq_refl)) E) as [HQ Hframe].
    assert (Hch1 : forall k, In k rest -> dict_contains ch1 k = false).
    { intros k Hk. apply dict_contains_false_get. rewrite Hframe.
      - apply dict_contains_false_get, Hch. right. exact Hk.
      - rewrite key_eqb_sym. apply (set_contains_false rest); assumption. }
    destruct (IH Hu (fun k c c' Hk => Hbody k c c' (or_intror Hk))
                ch1 ch' Hch1 Hrun) as [HQs Hothers].
    split.
    + intros k [<-|Hk]; [|apply HQs, Hk].
      rewrite (Hothers key Hkey). exact HQ.
    + intros k Hk. simpl in Hk. apply orb_false_iff in Hk.
      destruct Hk as [Hk1 Hk2].
      rewrite (Hothers k Hk2). apply Hframe, Hk1.
Qed.

Lemma for_each_total (body : atom -> list (atom * diff) ->
                             result (list (atom * diff)))
  (keys : list atom) :
  unique_keys keys = true ->
  (forall key ch, In key keys -> dict_contains ch key = false ->
     exists ch', body key ch = Ok ch'
       /\ forall k, key_eqb k key = false -> dict_get ch' k = dict_get ch k) ->
  forall ch,
    (forall k, In k keys -> dict_contains ch k = false) ->
    exists ch', for_each body keys ch = Ok ch'.
Proof.
  induction keys as [|key rest IH]; intros Hu Hbody ch Hch; simpl.
  - exists ch. reflexivity.
  - simpl in Hu. apply andb_true_iff in Hu. destruct Hu as [Hkey Hu].
    apply negb_true_iff in Hkey.
    destruct (Hbody key ch (or_introl eq_refl) (Hch key (or_introl eq_refl)))
      as [ch1 [E Hframe]].
    rewrite E. simpl.
    apply (IH Hu (fun k c Hk => Hbody k c (or_intror Hk))).
    intros k Hk. apply dict_contains_false_get. rewrite Hframe.
    + apply dict_contains_false_get, Hch. right. exact Hk.
    + rewrite key_eqb_sym. apply (set_contains_false rest); assumption.
Qed.

Lemma add_child_frame (ch ch' : list (atom * diff)) (key : atom) (c : diff) :
  add_child ch key c = Ok ch' ->
  dict_get ch' key = Some c
  /\ forall k, key_eqb k key = false -> dict_get ch' k = dict_get ch k.
Proof.
  intros H. split.
  - rewrite (add_child_get _ _ _ _ H), key_eqb_refl. reflexivity.
  - intros k Hk. rewrite (add_child_get _ _ _ _ H), Hk. reflexivity.
Qed.

(** One turn of the [dict] loop records what the specification says. *)
Lemma diff_dict_key_spec (s d : list (atom * value)) (key : atom)
  (ch ch' : list (atom * diff)) :
  dict_contains ch key = false ->
  diff_dict_key s d key ch = Ok ch' ->
  spec_child s d key = Ok (dict_get ch' key)
  /\ forall k, key_eqb k key = false -> dict_get ch' k = dict_get ch k.
Proof.
  intros Hch. unfold diff_dict_key, spec_child, dict_getitem.
  destruct (dict_contains s key) eqn:Es; simpl.
  - apply dict_contains_get in Es. destruct Es as [sv Es]. rewrite Es.
    destruct (dict_contains d key) eqn:Ed; simpl.
    + apply dict_contains_get in Ed. destruct Ed as [dv Ed]. rewrite Ed.
      simpl. destruct (diff_json sv dv) as [[c|]|e]; simpl; try discriminate.
      * intros H. destruct (add_child_frame _ _ _ _ H) as [-> Hf]. auto.
      * intros H. injection H as <-.
        apply dict_contains_false_get in Hch. rewrite Hch. auto.
    + apply dict_contains_false_get in Ed. rewrite Ed.
      intros H. destruct (add_child_frame _ _ _ _ H) as [-> Hf]. auto.
  - apply dict_contains_false_get in Es. rewrite Es.
    destruct (dict_get d key) as [dv|]; simpl; [|discriminate].
    intros H. destruct (add_child_frame _ _ _ _ H) as [-> Hf]. auto.
Qed.

Lemma spec_child_congr (s d : list (atom * value)) (a b : atom) :
  key_eqb a b = true -> spec_child s d a = spec_child s d b.
Proof.
  intros H. unfold spec_child.
  rewrite (dict_get_congr s _ _ H), (dict_get_congr d _ _ H). reflexivity.
Qed.

Lemma child_of_return (ch : list (atom * diff)) (key : atom) :
  child_of (return_diff ch) key = dict_get ch key.
Proof. destruct ch as [|[k c] rest]; reflexivity. Qed.

(** The children of the diff of two mappings are those of the
    specification, key by key. *)
Lemma diff_json_dict_children (s d : list (atom * value)) (r : option diff) :
  diff_json (VDict s) (VDict d) = Ok r ->
  forall key, spec_child s d key = Ok (child_of r key).
Proof.
  rewrite diff_json_dict.
  destruct (for_each _ _ _) as [ch|e] eqn:Eloop; simpl; [|discriminate].
  intros H key. injection H as <-. rewrite child_of_return.
  destruct (for_each_children (diff_dict_key s d)
              (fun k c => spec_child s d k = Ok c)
              (set_union (set_of (dict_keys s)) (set_of (dict_keys d))))
    with (ch := @nil (atom * diff)) (ch' := ch) as [Hin Hout];
    try (exact Eloop || reflexivity).
  - apply unique_keys_union, unique_keys_set_of.
  - intros k c c' _. apply diff_dict_key_spec.
  - destruct (set_contains
                (set_union (set_of (dict_keys s)) (set_of (dict_keys d))) key)
      eqn:E.
    + destruct (set_contains_true _ _ E) as [k0 [Hk0 Hkey]].
      rewrite (spec_child_congr _ _ _ _ Hkey), (dict_get_congr ch _ _ Hkey).
      apply Hin, Hk0.
    + rewrite (Hout key E). simpl.
      rewrite set_contains_union, !set_contains_set_of,
        !dict_contains_keys in E.
      apply orb_false_iff in E. destruct E as [Es Ed].
      apply dict_contains_false_get in Es, Ed.
      unfold spec_child. rewrite Es, Ed. reflexivity.
Qed.

(** ** [diff_json] returns on canonical values *)

Lemma canonical_dict_get (s : list (atom * value)) (key : atom) (v : value) :
  canonical (VDict s) = true -> dict_get s key = Some v -> canonical v = true.
Proof.
  simpl. rewrite andb_true_iff, forallb_forall. intros [_ H] Hget.
  destruct (dict_get_In _ _ _ Hget) as [k [Hin _]]. apply (H _ Hin).
Qed.

Lemma add_child_total (ch : list (atom * diff)) (key : atom) (c : diff) :
  dict_contains ch key = false ->
  exists ch', add_child ch key c = Ok ch'
    /\ forall k, key_eqb k key = false -> dict_get ch' k = dict_get ch k.
Proof.
  intros H. exists (dict_setitem ch key c). split; [apply add_child_ok, H|].
  intros k Hk. rewrite dict_get_setitem, Hk. reflexivity.
Qed.

Lemma diff_set_key_total (s d : list atom) (key : atom)
  (ch : list (atom * diff)) :
  dict_contains ch key = false ->
  exists ch', diff_set_key s d key ch = Ok ch'
    /\ forall k, key_eqb k key = false -> dict_get ch' k = dict_get ch k.
Proof.
  intros Hch. unfold diff_set_key.
  destruct (negb (set_contains s key)).
  { apply add_child_total, Hch. }
  destruct (negb (set_contains d key)).
  { apply add_child_total, Hch. }
  exists ch. auto.
Qed.

Lemma diff_json_canonical_ok (source destination : value) :
  canonical source = true -> canonical destination = true ->
  exists r, diff_json source destination = Ok r.
Proof.
  revert destination.
  induction source as [a|s IH|s|l _] using value_nested_ind;
    intros destination Hs Hd;
    (match goal with
     | |- exists r, diff_json ?src _ = _ =>
         destruct (pytype_eqb (type_of src) (type_of destination)) eqn:Ety;
         [|rewrite (diff_json_type _ _ Ety); eexists; reflexivity]
     end).
  - simpl in *. rewrite Ety, Hs. simpl.
    match goal with |- exists r, (if ?c then _ else _) = _ => destruct c end;
      eexists; reflexivity.
  - destruct destination as [[]|d| |]; try discriminate Ety.
    rewrite diff_json_dict.
    destruct (for_each_total (diff_dict_key s d)
                (set_union (set_of (dict_keys s)) (set_of (dict_keys d))))
      with (ch := @nil (atom * diff)) as [ch Hch]; try reflexivity.
    + apply unique_keys_union, unique_keys_set_of.
    + intros key ch Hkey Hc.
      apply set_contains_In in Hkey.
      rewrite set_contains_union, !set_contains_set_of,
        !dict_contains_keys in Hkey.
      unfold diff_dict_key, dict_getitem.
      destruct (dict_contains s key) eqn:Es; simpl.
      * apply dict_contains_get in Es. destruct Es as [sv Es]. rewrite Es.
        destruct (dict_contains d key) eqn:Ed; simpl.
        -- apply dict_contains_get in Ed. destruct Ed as [dv Ed]. rewrite Ed.
           simpl.
           destruct (dict_get_In _ _ _ Es) as [k0 [Hin _]].
           rewrite Forall_forall in IH.
           destruct (IH _ Hin dv (canonical_dict_get _ _ _ Hs Es)
                       (canonical_dict_get _ _ _ Hd Ed)) as [[c|] Hc'];
             simpl in Hc'; rewrite Hc'; simpl.
           ++ apply add_child_total, Hc.
           ++ exists ch. auto.
        -- apply add_child_total, Hc.
      * simpl in Hkey. apply dict_contains_get in Hkey.
        destruct Hkey as [dv Ed]. rewrite Ed. simpl.
        apply add_child_total, Hc.
    + rewrite Hch. simpl. eexists. reflexivity.
  - destruct destination as [[]| |d|]; try discriminate Ety.
    rewrite diff_json_set.
    destruct (for_each_total (diff_set_key s d) (set_union s d))
      with (ch := @nil (atom * diff)) as [ch Hch]; try reflexivity.
    + apply unique_keys_union. simpl in Hs. apply andb_true_iff in Hs.
      apply Hs.
    + intros key ch _. apply diff_set_key_total.
    + rewrite Hch. simpl. eexists. reflexivity.
  - discriminate Hs.
Qed.

(** ** The keys of two mappings *)

(** C2. For two canonical mappings [diff_json] returns, and its result
    classifies every key: a key of the source that the destination lacks
    has the child [Miss('DESTINATION', source[key])]; a key of the
    destination that the source lacks has the child
    [Miss('SOURCE', destination[key])]; a key of both has the recursive diff
    of the two values as its child when that diff is not [None], and no
    child when it is; a key of neither has no child. *)
Theorem diff_json_mapping_classification (s d : list (atom * value)) :
  canonical (VDict s) = true -> canonical (VDict d) = true ->
  exists r,
    diff_json (VDict s) (VDict d) = Ok r
    /\ forall key,
        (forall sv, dict_get s key = Some sv -> dict_get d key = None ->
           child_of r key = Some (Miss "DESTINATION" sv))
        /\ (forall dv, dict_get s key = None -> dict_get d key = Some dv ->
              child_of r key = Some (Miss "SOURCE" dv))
        /\ (forall sv dv, dict_get s key = Some sv -> dict_get d key = Some dv ->
              diff_json sv dv = Ok (child_of r key))
        /\ (dict_get s key = None -> dict_get d key = None ->
              child_of r key = None).
Proof.
  intros Hs Hd.
  destruct (diff_json_canonical_ok _ _ Hs Hd) as [r Hr].
  exists r. split; [exact Hr|].
  intros key. pose proof (diff_json_dict_children s d r Hr key) as H.
  unfold spec_child in H.
  repeat split.
  - intros sv Es Ed. rewrite Es, Ed in H. congruence.
  - intros dv Es Ed. rewrite Es, Ed in H. congruence.
  - intros sv dv Es Ed. rewrite Es, Ed in H. exact H.
  - intros Es Ed. rewrite Es, Ed in H. congruence.
Qed.

(** ** The assertion of [add_child] *)

(** C9. On canonical inputs no call of [diff_json] ends in the
    [AssertionError] of [DictDiff.add_child]: each loop runs over a union,
    whose keys are pairwise different, and adds a child under the key of
    its turn only. *)
Theorem add_child_assertion_unreachable (source destination : value) :
  canonical source = true -> canonical destination = true ->
  diff_json source destination <> Raise AssertionError.
Proof.
  intros Hs Hd. destruct (diff_json_canonical_ok _ _ Hs Hd) as [r ->].
  discriminate.
Qed.

(** ** Reflexivity *)

Lemma pytype_eqb_refl (t : pytype) : pytype_eqb t t = true.
Proof. destruct t; reflexivity. Qed.

Lemma pytype_eqb_sym (s t : pytype) : pytype_eqb s t = pytype_eqb t s.
Proof. destruct s, t; reflexivity. Qed.

Lemma atom_eq_sym (a b : atom) : atom_eq a b = atom_eq b a.
Proof. unfold atom_eq. rewrite orb_comm, key_eqb_sym. reflexivity. Qed.

Lemma atom_eq_refl (a : atom) : is_nan a = false -> atom_eq a a = true.
Proof. intros H. unfold atom_eq. rewrite H. apply key_eqb_refl. Qed.

Lemma for_each_const {A S} (body : A -> S -> result S) (l : list A) (st : S) :
  (forall x, In x l -> body x st = Ok st) -> for_each body l st = Ok st.
Proof.
  induction l as [|x rest IH]; intros H; simpl; [reflexivity|].
  rewrite (H x (or_introl eq_refl)). simpl.
  apply IH. intros y Hy. apply H. right. exact Hy.
Qed.

(** C5, as the code has it. [diff_json(v, v)] is [None] for every canonical
    value [v] in which no scalar that is compared by [!=] is a NaN. *)
Theorem diff_json_reflexive (v : value) :
  canonical v = true -> nan_free v = true -> diff_json v v = Ok None.
Proof.
  induction v as [a|s IH|s|l _] using value_nested_ind; intros Hc Hn.
  - simpl in *. rewrite pytype_eqb_refl, Hc. simpl.
    rewrite atom_eq_refl; [reflexivity|].
    apply negb_true_iff, Hn.
  - rewrite diff_json_dict.
    rewrite for_each_const; [reflexivity|].
    intros key Hkey. apply set_contains_In in Hkey.
    rewrite set_contains_union, !set_contains_set_of, !dict_contains_keys,
      orb_diag in Hkey.
    unfold diff_dict_key, dict_getitem. rewrite Hkey. simpl.
    destruct (proj1 (dict_contains_get _ _) Hkey) as [sv Es].
    rewrite Es. simpl.
    destruct (dict_get_In _ _ _ Es) as [k0 [Hin _]].
    rewrite Forall_forall in IH. specialize (IH _ Hin). simpl in IH.
    rewrite IH; [reflexivity| |].
    + apply (canonical_dict_get _ _ _ Hc Es).
    + simpl in Hn. rewrite forallb_forall in Hn. apply (Hn _ Hin).
  - rewrite diff_json_set.
    rewrite for_each_const; [reflexivity|].
    intros key Hkey. apply set_contains_In in Hkey.
    rewrite set_contains_union, orb_diag in Hkey.
    unfold diff_set_key. rewrite Hkey. reflexivity.
  - discriminate Hc.
Qed.

(** C5, as the claim states it, fails at the scalar NaN:
    [nan != nan] holds, and [diff_json(nan, nan)] is a [ValueDiff]. *)
Lemma diff_json_nan_not_reflexive :
  canonical (VAtom (AFloat (F_nan 0))) = true
  /\ diff_json (VAtom (AFloat (F_nan 0))) (VAtom (AFloat (F_nan 0)))
     = Ok (Some (ValueDiff (VAtom (AFloat (F_nan 0)))
                   (VAtom (AFloat (F_nan 0)))))
  /\ diff_json (VAtom (AFloat (F_nan 0))) (VAtom (AFloat (F_nan 0)))
     <> Ok None.
Proof. repeat split. discriminate. Qed.

(** ** Symmetry of the kind of mismatch *)

Lemma return_diff_DictDiff (ch : list (atom * diff)) (r : diff) :
  return_diff ch = Some r -> r = DictDiff ch.
Proof.
  unfold return_diff. destruct (has_diff ch); [|discriminate].
  intros H. injection H as <-. reflexivity.
Qed.

(** C6. When [diff_json(a, b)] is a [TypeDiff], [diff_json(b, a)] is the
    [TypeDiff] with source and destination swapped, and when it is a
    [ValueDiff], [diff_json(b, a)] is the [ValueDiff] with source and
    destination swapped. *)
Theorem diff_json_mismatch_symmetric (a b : value) (r : diff) :
  diff_json a b = Ok (Some r) ->
  match r with
  | TypeDiff x y => diff_json b a = Ok (Some (TypeDiff y x))
  | ValueDiff x y => diff_json b a = Ok (Some (ValueDiff y x))
  | _ => True
  end.
Proof.
  intros H.
  destruct (pytype_eqb (type_of a) (type_of b)) eqn:Ety.
  - destruct a as [x|s|s|l].
    + destruct b as [y| | |]; try (destruct x; discriminate Ety).
      simpl in *. rewrite Ety in H. simpl in H.
      destruct (is_scalar_atom x) eqn:Ex; [|discriminate].
      destruct (atom_eq x y) eqn:Exy; simpl in H; [discriminate|].
      injection H as <-.
      rewrite pytype_eqb_sym, Ety. simpl.
      replace (is_scalar_atom y) with true
        by (destruct x, y; try discriminate; reflexivity).
      rewrite atom_eq_sym, Exy. reflexivity.
    + destruct b as [[]|d| |]; try discriminate Ety.
      rewrite diff_json_dict in H.
      destruct (for_each _ _ _) as [ch|e]; simpl in H; [|discriminate].
      injection H as H. rewrite (return_diff_DictDiff _ _ H). exact I.
    + destruct b as [[]| |d|]; try discriminate Ety.
      rewrite diff_json_set in H.
      destruct (for_each _ _ _) as [ch|e]; simpl in H; [|discriminate].
      injection H as H. rewrite (return_diff_DictDiff _ _ H). exact I.
    + simpl in *. rewrite Ety in H. discriminate.
  - rewrite (diff_json_type _ _ Ety) in H. injection H as <-.
    apply diff_json_type. rewrite pytype_eqb_sym. exact Ety.
Qed.

(** ** Exact types before values *)

(** C10. [diff_json] tests [type(source) != type(destination)] first, so an
    [int] against a [float] is a [TypeDiff] whatever their values:
    [1 == 1.0] holds and [diff_json(1, 1.0)] is a [TypeDiff]. *)
Theorem diff_json_int_float_TypeDiff :
  (forall (i : Z) (f : float),
      diff_json (VAtom (AInt i)) (VAtom (AFloat f))
      = Ok (Some (TypeDiff (VAtom (AInt i)) (VAtom (AFloat f)))))
  /\ atom_eq (AInt 1) (AFloat (F_finite false 1 0)) = true
  /\ diff_json (VAtom (AInt 1)) (VAtom (AFloat (F_finite false 1 0)))
     = Ok (Some (TypeDiff (VAtom (AInt 1))
                   (VAtom (AFloat (F_finite false 1 0))))).
Proof. repeat split. Qed.

(** ** Preparation of a list of mappings *)

Lemma for_eachM_inv {A S} (body : A -> S -> M S) (I : S -> Prop)
  (l : list A) :
  (forall x st log st' log',
      In x l -> I st -> body x st log = (Ok st', log') -> I st') ->
  forall st0 log0 st log,
    I st0 -> for_eachM body l st0 log0 = (Ok st, log) -> I st.
Proof.
  induction l as [|x rest IH]; intros Hstep st0 log0 st log H0 Hrun;
    simpl in Hrun.
  - injection Hrun as <- _. exact H0.
  - unfold bindM in Hrun at 1.
    destruct (body x st0 log0) as [[st1|e] log1] eqn:E; [|discriminate].
    apply (IH (fun y s lg s' lg' Hy => Hstep y s lg s' lg' (or_intror Hy))
             st1 log1 st log); [|exact Hrun].
    apply (Hstep x st0 log0 st1 log1); auto. left; reflexivity.
Qed.

Lemma for_eachM_app {A S} (body : A -> S -> M S) (l1 l2 : list A) :
  forall st log,
    for_eachM body (l1 ++ l2) st log
    = match for_eachM body l1 st log with
      | (Ok st', log') => for_eachM body l2 st' log'
      | (Raise e, log') => (Raise e, log')
      end.
Proof.
  induction l1 as [|x rest IH]; intros st log; [reflexivity|].
  simpl. unfold bindM.
  destruct (body x st log) as [[st1|e] log1]; [apply IH|reflexivity].
Qed.

Section PrepareFacts.
Variable py_str : value -> string.

(** The loop of a list of mappings, as [prepare_diff_input] runs it. *)
Lemma prepare_diff_input_records (items : list (atom * value))
  (rest : list value) (cfg : DiffConfig) :
  prepare_diff_input py_str (VList (VDict items :: rest)) (Some cfg)
  = if primary_key_truthy (primary_key cfg) then
      result <~
        for_eachM (record_turn py_str cfg) (VDict items :: rest) [] ;;
      ret (VDict result)
    else raise AssertionError.
Proof. reflexivity. Qed.




(** The candidates are tried in the order of the list, against the
    prepared record. *)
Lemma record_key_first (pre post : list atom) (c : atom)
  (items : list (atom * value)) (v : value) :
  (forall p, In p pre -> dict_contains items p = false) ->
  dict_get items c = Some v ->
  record_key py_str (PKList (pre ++ c :: post)) (VDict items) = Ok v.
Proof.
  intros Hpre Hc. simpl.
  induction pre as [|p pre IH]; simpl.
  - replace (dict_contains items c) with true
      by (symmetry; apply dict_contains_get; exists v; exact Hc).
    unfold dict_getitem. rewrite Hc. reflexivity.
  - rewrite (Hpre p (or_introl eq_refl)).
    apply IH. intros q Hq. apply Hpre. right. exact Hq.
Qed.

(** A list of mappings is prepared from left to right: once a first part
    of the list has been prepared to [result], the rest is run through the
    loop from [result]. *)
Lemma prepare_list_split (pre rest tl : list value)
  (raw result : list (atom * value)) (cfg : DiffConfig)
  (log log1 : list string) :
  (pre ++ rest)%list = VDict raw :: tl ->
  primary_key_truthy (primary_key cfg) = true ->
  prepare_diff_input py_str (VList pre) (Some cfg) log
  = (Ok (VDict result), log1) ->
  prepare_diff_input py_str (VList (pre ++ rest)) (Some cfg) log
  = (r <~ for_eachM (record_turn py_str cfg) rest result ;; ret (VDict r)) log1.
Proof.
  intros Happ Ht Hpre. destruct pre as [|x pre].
  - simpl in Happ. subst rest. injection Hpre as <- <-.
    simpl app. rewrite prepare_diff_input_records, Ht. reflexivity.
  - injection Happ as -> _.
    rewrite prepare_diff_input_records, Ht in Hpre.
    unfold bindM at 1 in Hpre.
    destruct (for_eachM _ _ _ _) as [[res|e] lg] eqn:E; [|discriminate].
    injection Hpre as -> ->.
    change ((VDict raw :: pre) ++ rest)%list
      with (VDict raw :: (pre ++ rest))%list.
    rewrite prepare_diff_input_records, Ht.
    change (VDict raw :: (pre ++ rest))%list
      with ((VDict raw :: pre) ++ rest)%list.
    unfold bindM. rewrite for_eachM_app, E. reflexivity.
Qed.



(** C7. Let the primary key be a list of candidate field names, and let an
    element of a list of mappings be prepared to a record (normalized, the
    ignored keys dropped).  The key of the element is the value of the
    first candidate, in the order of the list, that is a field of the
    prepared record: the candidates before it, which the prepared record
    lacks, are skipped, and preparing the list up to this element stores
    the prepared record under that value. *)
Theorem first_present_candidate_is_key (cfg : DiffConfig)
  (raw result items : list (atom * value)) (pre tl : list value)
  (inner : value) (log log1 log2 : list string)
  (cpre cpost : list atom) (c key : atom) :
  (pre ++ [inner])%list = VDict raw :: tl ->
  primary_key cfg = PKList (cpre ++ c :: cpost) ->
  prepare_diff_input py_str (VList pre) (Some cfg) log
  = (Ok (VDict result), log1) ->
  prepare_diff_input py_str inner (Some cfg) log1 = (Ok (VDict items), log2) ->
  (forall p, In p cpre -> dict_contains items p = false) ->
  dict_get items c = Some (VAtom key) ->
  dict_contains result key = false ->
  prepare_diff_input py_str (VList (pre ++ [inner])) (Some cfg) log
  = (Ok (VDict (dict_setitem result key (VDict items))), log2).
Proof.
  intros Happ Hpk Hpre Hprep Hc Hget Hfree.
  assert (Ht : primary_key_truthy (primary_key cfg) = true).
  { rewrite Hpk. destruct cpre; reflexivity. }
  rewrite (prepare_list_split _ _ _ _ _ _ _ _ Happ Ht Hpre).
  unfold bindM at 1. simpl for_eachM. unfold bindM at 1.
  unfold record_turn at 1, record_step, bindM, lift.
  rewrite Hprep, Hpk, (record_key_first cpre cpost c items _ Hc Hget).
  simpl. rewrite Hfree. reflexivity.
Qed.
End PrepareFacts.

(** ** The configuration that a list of mappings requires *)

(** C3, at the input where the code departs from it. The constructor wraps
    a primary key that is no list in a list, so [config.primary_key] is
    [[None]] when no primary key is given: the assertion of line 185 finds
    it true, and the list [[{"a": 1}]] is prepared to [{None: {"a": 1}}]
    instead of failing. *)
Theorem null_primary_key_is_accepted (py_str : value -> string) :
  (forall a ik ch,
      primary_key_truthy (primary_key (DiffConfig_init (One a) ik ch)) = true)
  /\ primary_key no_primary_key = PKList [ANone]
  /\ prepare_diff_input py_str (VList [VDict [(AStr "a", int 1)]])
       (Some no_primary_key) []
     = (Ok (VDict [(ANone, VDict [(AStr "a", int 1)])]), []).
Proof.
  repeat split.
  intros a ik ch. destruct a as [| | | |s]; try reflexivity.
  simpl. destruct (String.eqb s _HASH_PRIMARY_KEY); reflexivity.
Qed.

(** What the assertion does reject: no config, or an empty list of
    candidates. *)
Lemma prepare_records_assertion (py_str : value -> string)
  (items : list (atom * value)) (rest : list value)
  (config : option DiffConfig) (log : list string) :
  match config with
  | Some cfg => primary_key_truthy (primary_key cfg) = false
  | None => True
  end ->
  prepare_diff_input py_str (VList (VDict items :: rest)) config log
  = (Raise AssertionError, log).
Proof.
  destruct config as [cfg|]; [|reflexivity].
  intros H. rewrite prepare_diff_input_records, H. reflexivity.
Qed.

(** C8, as the claim states it, fails: [[1, 2]] is a list of scalars, and
    [prepare_diff_input([1, 2], None)] returns the set [{1, 2}]. *)
Lemma prepare_scalar_list_returns :
  prepare_diff_input simple_str (VList [int 1; int 2]) None []
  = (Ok (VSet [AInt 1; AInt 2]), [])
  /\ ~ (exists e log,
          prepare_diff_input simple_str (VList [int 1; int 2]) None []
          = (Raise e, log)).
Proof.
  split; [reflexivity|]. intros [e [log H]]. discriminate H.
Qed.

(** C8, as the code has it. A list whose first element is a mapping, with
    no config, fails at once with the assertion error: nothing is
    returned and nothing is logged.  The list [[1, 2]] holds scalars,
    needs no config, and is prepared to the set [{1, 2}]. *)
Theorem prepare_without_config (py_str : value -> string) :
  (forall items rest log,
      prepare_diff_input py_str (VList (VDict items :: rest)) None log
      = (Raise AssertionError, log))
  /\ (forall log,
        prepare_diff_input py_str (VList [int 1; int 2]) None log
        = (Ok (VSet [AInt 1; AInt 2]), log)).
Proof. split; reflexivity. Qed.

(** ** The properties at concrete inputs *)

Lemma diff_json_no_empty_DictDiff_witness :
  diff_json (VDict left_items) (VDict right_items)
  = Ok (Some (DictDiff
                [(AStr "a", Miss "DESTINATION" (int 1));
                 (AStr "b", DictDiff [(AStr "c", ValueDiff (int 2) (int 3))]);
                 (AStr "z", Miss "SOURCE" (str "w"))]))
  /\ nonempty_nodes
       (DictDiff
          [(AStr "a", Miss "DESTINATION" (int 1));
           (AStr "b", DictDiff [(AStr "c", ValueDiff (int 2) (int 3))]);
           (AStr "z", Miss "SOURCE" (str "w"))]) = true.
Proof.
  split; [reflexivity|].
  apply (proj1 diff_json_no_empty_DictDiff
           (VDict left_items) (VDict right_items)).
  reflexivity.
Defined.

Lemma diff_json_mapping_classification_witness :
  canonical (VDict left_items) = true
  /\ canonical (VDict right_items) = true
  /\ exists r,
      diff_json (VDict left_items) (VDict right_items) = Ok r
      /\ forall key,
          (forall sv, dict_get left_items key = Some sv ->
                      dict_get right_items key = None ->
                      child_of r key = Some (Miss "DESTINATION" sv))
          /\ (forall dv, dict_get left_items key = None ->
                         dict_get right_items key = Some dv ->
                         child_of r key = Some (Miss "SOURCE" dv))
          /\ (forall sv dv, dict_get left_items key = Some sv ->
                            dict_get right_items key = Some dv ->
                            diff_json sv dv = Ok (child_of r key))
          /\ (dict_get left_items key = None ->
              dict_get right_items key = None ->
              child_of r key = None).
Proof.
  split; [reflexivity|]. split; [reflexivity|].
  apply (diff_json_mapping_classification left_items right_items);
    reflexivity.
Defined.

Lemma add_child_assertion_unreachable_witness :
  canonical (VSet [AInt 1; AInt 2; AInt 3]) = true
  /\ canonical (VSet [AInt 2; AInt 3; AInt 4]) = true
  /\ diff_json (VSet [AInt 1; AInt 2; AInt 3]) (VSet [AInt 2; AInt 3; AInt 4])
     <> Raise AssertionError.
Proof.
  split; [reflexivity|]. split; [reflexivity|].
  apply (add_child_assertion_unreachable
           (VSet [AInt 1; AInt 2; AInt 3]) (VSet [AInt 2; AInt 3; AInt 4]));
    reflexivity.
Defined.

Lemma diff_json_reflexive_witness :
  canonical (VDict [(AStr "a", VDict [(AStr "b", int 1)]);
                    (AStr "s", VSet [AFloat (F_nan 0); AInt 1])]) = true
  /\ diff_json
       (VDict [(AStr "a", VDict [(AStr "b", int 1)]);
               (AStr "s", VSet [AFloat (F_nan 0); AInt 1])])
       (VDict [(AStr "a", VDict [(AStr "b", int 1)]);
               (AStr "s", VSet [AFloat (F_nan 0); AInt 1])])
     = Ok None.
Proof.
  split; [reflexivity|].
  apply (diff_json_reflexive
           (VDict [(AStr "a", VDict [(AStr "b", int 1)]);
                   (AStr "s", VSet [AFloat (F_nan 0); AInt 1])]));
    reflexivity.
Defined.

Lemma diff_json_mismatch_symmetric_witness :
  diff_json (int 1) (int 2) = Ok (Some (ValueDiff (int 1) (int 2)))
  /\ diff_json (int 2) (int 1) = Ok (Some (ValueDiff (int 2) (int 1))).
Proof.
  split; [reflexivity|].
  exact (diff_json_mismatch_symmetric (int 1) (int 2)
           (ValueDiff (int 1) (int 2)) eq_refl).
Defined.


Lemma first_present_candidate_is_key_witness :
  prepare_diff_input simple_str
    (VList [VDict [(AStr "uid", int 9); (AStr "id", int 2); (AStr "v", str "y")];
            VDict [(AStr "uid", int 7); (AStr "id", int 1); (AStr "v", str "x")]])
    (Some by_uid_or_id) []
  = (Ok (VDict [(AInt 2, record 2 "y"); (AInt 1, record 1 "x")]), []).
Proof.
  apply (first_present_candidate_is_key simple_str by_uid_or_id
           [(AStr "uid", int 9); (AStr "id", int 2); (AStr "v", str "y")]
           [(AInt 2, record 2 "y")]
           [(AStr "id", int 1); (AStr "v", str "x")]
           [VDict [(AStr "uid", int 9); (AStr "id", int 2); (AStr "v", str "y")]]
           [VDict [(AStr "uid", int 7); (AStr "id", int 1); (AStr "v", str "x")]]
           (VDict [(AStr "uid", int 7); (AStr "id", int 1); (AStr "v", str "x")])
           [] [] [] [AStr "uid"] [] (AStr "id") (AInt 1)).
  - reflexivity.
  - reflexivity.
  - reflexivity.
  - reflexivity.
  - intros p [<-|[]]. reflexivity.
  - reflexivity.
  - reflexivity.
Defined.

(** ** The examples of the specification *)

Example missing_side :
  diff_json (VDict [(AStr "a", int 1)]) (VDict [])
  = Ok (Some (DictDiff [(AStr "a", Miss "DESTINATION" (int 1))])).
Proof. reflexivity. Qed.

Example set_diff :
  diff_json (VSet [AInt 1; AInt 2; AInt 3]) (VSet [AInt 2; AInt 3; AInt 4])
  = Ok (Some (DictDiff [(AInt 1, Miss "DESTINATION" (int 1));
                        (AInt 4, Miss "SOURCE" (int 4))])).
Proof. reflexivity. Qed.

Example nested_no_diff :
  diff_json (VDict [(AStr "a", VDict [(AStr "b", int 1)])])
    (VDict [(AStr "a", VDict [(AStr "b", int 1)])])
  = Ok None.
Proof. reflexivity. Qed.

Example scalar_list :
  prepare_diff_input simple_str (VList [int 3; int 1; int 2; int 1]) None []
  = (Ok (VSet [AInt 3; AInt 1; AInt 2]), []).
Proof. reflexivity. Qed.

Example keyed_list :
  prepare_diff_input simple_str
    (VList [record 1 "x"; record 2 "y"; record 1 "z"]) (Some by_id) []
  = (Ok (VDict [(AInt 1, record 1 "x"); (AInt 2, record 2 "y")]),
     [duplicates_message simple_str (record 1 "z") (record 1 "x")]).
Proof. reflexivity. Qed.

Example ignored_key :
  prepare_diff_input simple_str (VDict [(AStr "a", int 1); (AStr "b", int 2)])
    (Some (DiffConfig_init (One ANone) (Some [AStr "b"]) None)) []
  = (Ok (VDict [(AStr "a", int 1)]), []).
Proof. reflexivity. Qed.

Example int_and_float_keys_collide :
  key_eqb (AInt 1) (AFloat (F_finite false 1 0)) = true
  /\ key_eqb (ABool true) (AInt 1) = true
  /\ key_eqb (AFloat (F_finite false 4 (-2))) (AInt 1) = true
  /\ key_eqb (AFloat (F_nan 0)) (AFloat (F_nan 0)) = true
  /\ key_eqb (AFloat (F_nan 0)) (AFloat (F_nan 1)) = false
  /\ atom_eq (AFloat (F_nan 0)) (AFloat (F_nan 0)) = false.
Proof. repeat split. Qed.

(** * Further properties of the comparison *)

(** ** The elements of two sets *)

Lemma diff_set_key_spec (s d : list atom) (key : atom)
  (ch ch' : list (atom * diff)) :
  dict_contains ch key = false ->
  diff_set_key s d key ch = Ok ch' ->
  dict_get ch' key = set_child s d key
  /\ forall k, key_eqb k key = false -> dict_get ch' k = dict_get ch k.
Proof.
  intros Hch. unfold diff_set_key, set_child.
  destruct (negb (set_contains s key)).
  { intros H. destruct (add_child_frame _ _ _ _ H) as [-> Hf]. auto. }
  destruct (negb (set_contains d key)).
  { intros H. destruct (add_child_frame _ _ _ _ H) as [-> Hf]. auto. }
  intros H. injection H as <-.
  apply dict_contains_false_get in Hch. auto.
Qed.

Lemma diff_json_set_children (s d : list atom) (r : option diff) :
  unique_keys s = true ->
  diff_json (VSet s) (VSet d) = Ok r ->
  (forall k, In k (set_union s d) -> child_of r k = set_child s d k)
  /\ (forall k, set_contains (set_union s d) k = false -> child_of r k = None).
Proof.
  intros Hu. rewrite diff_json_set.
  destruct (for_each _ _ _) as [ch|e] eqn:Eloop; simpl; [|discriminate].
  intros H. injection H as <-.
  destruct (for_each_children (diff_set_key s d)
              (fun k c => c = set_child s d k) (set_union s d))
    with (ch := @nil (atom * diff)) (ch' := ch) as [Hin Hout];
    try (exact Eloop || reflexivity).
  - apply unique_keys_union, Hu.
  - intros k c c' _. apply diff_set_key_spec.
  - split; intros k Hk; rewrite child_of_return; auto.
Qed.

Lemma In_set_add (s : list atom) (k x : atom) :
  In x (set_add s k) -> In x s \/ x = k.
Proof.
  unfold set_add. destruct (set_contains s k); [auto|].
  intros H. apply in_app_or in H. destruct H as [H|[H|[]]]; auto.
Qed.

Lemma In_set_union (t s : list atom) (x : atom) :
  In x (set_union s t) -> In x s \/ In x t.
Proof.
  unfold set_union. revert s.
  induction t as [|k rest IH]; intros s; simpl; [auto|].
  intros H. destruct (IH _ H) as [H1|H1]; [|auto].
  destruct (In_set_add _ _ _ H1) as [H2| ->]; auto.
Qed.

Lemma child_of_congr (r : option diff) (a b : atom) :
  key_eqb a b = true -> child_of r a = child_of r b.
Proof.
  intros H. destruct r as [[| | |ch]|]; try reflexivity.
  apply dict_get_congr, H.
Qed.

(** X1. For two canonical sets [diff_json] returns, and for every value
    [key]: when the destination has it and the source does not, its child is
    [Miss('SOURCE', e)] for the element [e] of the destination that [key]
    equals; when the source has it and the destination does not, its child
    is [Miss('DESTINATION', e)] for that element [e] of the source; when
    both or neither have it, it has no child. *)
Theorem diff_json_set_classification (s d : list atom) :
  canonical (VSet s) = true -> canonical (VSet d) = true ->
  exists r,
    diff_json (VSet s) (VSet d) = Ok r
    /\ forall key,
        (set_contains s key = false -> set_contains d key = true ->
         exists e, In e d /\ key_eqb key e = true
                   /\ child_of r key = Some (Miss "SOURCE" (VAtom e)))
        /\ (set_contains s key = true -> set_contains d key = false ->
            exists e, In e s /\ key_eqb key e = true
                      /\ child_of r key = Some (Miss "DESTINATION" (VAtom e)))
        /\ (set_contains s key = set_contains d key -> child_of r key = None).
Proof.
  intros Hs Hd.
  destruct (diff_json_canonical_ok _ _ Hs Hd) as [r Hr].
  exists r. split; [exact Hr|].
  assert (Hu : unique_keys s = true).
  { simpl in Hs. apply andb_true_iff in Hs. apply Hs. }
  destruct (diff_json_set_children s d r Hu Hr) as [Hin Hout].
  assert (Hrep : forall key,
             set_contains s key || set_contains d key = true ->
             exists e, In e (set_union s d) /\ key_eqb key e = true
                       /\ child_of r key = set_child s d e
                       /\ set_contains s e = set_contains s key
                       /\ set_contains d e = set_contains d key).
  { intros key Hk. rewrite <- set_contains_union in Hk.
    destruct (set_contains_true _ _ Hk) as [e [He Hke]].
    exists e. repeat split; auto.
    - rewrite (child_of_congr r _ _ Hke). apply Hin, He.
    - symmetry. apply set_contains_congr, Hke.
    - symmetry. apply set_contains_congr, Hke. }
  intros key. repeat split.
  - intros Es Ed.
    destruct (Hrep key) as [e [He [Hke [Hc [Hes Hed]]]]];
      [rewrite Ed; apply orb_true_r|].
    exists e. unfold set_child in Hc. rewrite Hes, Es in Hc. simpl in Hc.
    repeat split; auto.
    destruct (In_set_union _ _ _ He) as [H|H]; [|exact H].
    apply set_contains_In in H. congruence.
  - intros Es Ed.
    destruct (Hrep key) as [e [He [Hke [Hc [Hes Hed]]]]];
      [rewrite Es; reflexivity|].
    exists e. unfold set_child in Hc. rewrite Hes, Es, Hed, Ed in Hc.
    simpl in Hc. repeat split; auto.
    destruct (In_set_union _ _ _ He) as [H|H]; [exact H|].
    apply set_contains_In in H. congruence.
  - intros E. destruct (set_contains s key) eqn:Es.
    + destruct (Hrep key) as [e [He [Hke [Hc [Hes Hed]]]]];
        [rewrite Es; reflexivity|].
      unfold set_child in Hc. rewrite Hes, Es, Hed, <- E in Hc. exact Hc.
    + apply Hout. rewrite set_contains_union, Es, <- E. reflexivity.
Qed.

(** ** The exceptions of [diff_json] *)

Lemma for_each_raise {A S} (body : A -> S -> result S) (l : list A) (e : exn) :
  forall st, for_each body l st = Raise e ->
             exists x st', In x l /\ body x st' = Raise e.
Proof.
  induction l as [|x rest IH]; intros st H; simpl in H; [discriminate|].
  destruct (body x st) as [st1|e1] eqn:E; simpl in H.
  - destruct (IH _ H) as [y [st' [Hy Hb]]]. exists y, st'.
    split; [right; exact Hy|exact Hb].
  - injection H as ->. exists x, st. split; [left; reflexivity|exact E].
Qed.

Lemma for_each_outcome (body : atom -> list (atom * diff) ->
                               result (list (atom * diff)))
  (keys : list atom) (e : exn) :
  unique_keys keys = true ->
  (forall key ch, In key keys -> dict_contains ch key = false ->
     (exists ch', body key ch = Ok ch'
        /\ forall k, key_eqb k key = false -> dict_get ch' k = dict_get ch k)
     \/ body key ch = Raise e) ->
  forall ch,
    (forall k, In k keys -> dict_contains ch k = false) ->
    (exists ch', for_each body keys ch = Ok ch')
    \/ for_each body keys ch = Raise e.
Proof.
  induction keys as [|key rest IH]; intros Hu Hbody ch Hch; simpl.
  - left. exists ch. reflexivity.
  - simpl in Hu. apply andb_true_iff in Hu. destruct Hu as [Hkey Hu].
    apply negb_true_iff in Hkey.
    destruct (Hbody key ch (or_introl eq_refl) (Hch key (or_introl eq_refl)))
      as [[ch1 [E Hframe]]|E]; rewrite E; simpl; [|right; reflexivity].
    apply (IH Hu (fun k c Hk => Hbody k c (or_intror Hk))).
    intros k Hk. apply dict_contains_false_get. rewrite Hframe.
    + apply dict_contains_false_get, Hch. right. exact Hk.
    + rewrite key_eqb_sym. apply (set_contains_false rest); assumption.
Qed.

Lemma sets_unique_dict_get (s : list (atom * value)) (key : atom) (v : value) :
  sets_unique (VDict s) = true -> dict_get s key = Some v ->
  sets_unique v = true.
Proof.
  simpl. rewrite forallb_forall. intros H Hget.
  destruct (dict_get_In _ _ _ Hget) as [k [Hin _]]. apply (H _ Hin).
Qed.

Lemma diff_json_outcome (source destination : value) :
  sets_unique source = true ->
  (exists r, diff_json source destination = Ok r)
  \/ diff_json source destination = Raise NotImplementedError.
Proof.
  revert destination.
  induction source as [a|s IH|s|l _] using value_nested_ind;
    intros destination Hs;
    (match goal with
     | |- (exists r, diff_json ?src _ = _) \/ _ =>
         destruct (pytype_eqb (type_of src) (type_of destination)) eqn:Ety;
         [|rewrite (diff_json_type _ _ Ety); left; eexists; reflexivity]
     end).
  - simpl in *. rewrite Ety. simpl.
    destruct (is_scalar_atom a); [|right; reflexivity].
    match goal with |- (exists r, (if ?c then _ else _) = _) \/ _ =>
      destruct c end; left; eexists; reflexivity.
  - destruct destination as [[]|d| |]; try discriminate Ety.
    rewrite diff_json_dict.
    destruct (for_each_outcome (diff_dict_key s d)
                (set_union (set_of (dict_keys s)) (set_of (dict_keys d)))
                NotImplementedError)
      with (ch := @nil (atom * diff)) as [[ch Hch]|Hch]; try reflexivity.
    + apply unique_keys_union, unique_keys_set_of.
    + intros key ch Hkey Hc.
      apply set_contains_In in Hkey.
      rewrite set_contains_union, !set_contains_set_of,
        !dict_contains_keys in Hkey.
      unfold diff_dict_key, dict_getitem.
      destruct (dict_contains s key) eqn:Es; simpl.
      * apply dict_contains_get in Es. destruct Es as [sv Es]. rewrite Es.
        destruct (dict_contains d key) eqn:Ed; simpl.
        -- apply dict_contains_get in Ed. destruct Ed as [dv Ed]. rewrite Ed.
           simpl.
           destruct (dict_get_In _ _ _ Es) as [k0 [Hin _]].
           rewrite Forall_forall in IH.
           destruct (IH _ Hin dv (sets_unique_dict_get _ _ _ Hs Es))
             as [[[c|] Hc']|Hc']; simpl in Hc'; rewrite Hc'; simpl.
           ++ left. apply add_child_total, Hc.
           ++ left. exists ch. auto.
           ++ right. reflexivity.
        -- left. apply add_child_total, Hc.
      * simpl in Hkey. apply dict_contains_get in Hkey.
        destruct Hkey as [dv Ed]. rewrite Ed. simpl.
        left. apply add_child_total, Hc.
    + rewrite Hch. left. eexists. reflexivity.
    + rewrite Hch. right. reflexivity.
  - destruct destination as [[]| |d|]; try discriminate Ety.
    rewrite diff_json_set.
    destruct (for_each_total (diff_set_key s d) (set_union s d))
      with (ch := @nil (atom * diff)) as [ch Hch]; try reflexivity.
    + apply unique_keys_union. exact Hs.
    + intros key ch _. apply diff_set_key_total.
    + rewrite Hch. left. eexists. reflexivity.
  - simpl in *. rewrite Ety. right. reflexivity.
Qed.

Lemma prepared_sets_unique (v : value) :
  prepared v = true -> sets_unique v = true.
Proof.
  induction v as [a|s IH|s|l _] using value_nested_ind; simpl; auto.
  - rewrite andb_true_iff, !forallb_forall. intros [_ H] kv Hkv.
    rewrite Forall_forall in IH. apply (IH _ Hkv), H, Hkv.
  - discriminate.
Qed.

Lemma prepared_dict_get (s : list (atom * value)) (key : atom) (v : value) :
  prepared (VDict s) = true -> dict_get s key = Some v -> prepared v = true.
Proof.
  simpl. rewrite andb_true_iff, forallb_forall. intros [_ H] Hget.
  destruct (dict_get_In _ _ _ Hget) as [k [Hin _]]. apply (H _ Hin).
Qed.

Lemma add_child_not_NotImplementedError (ch : list (atom * diff))
  (key : atom) (c : diff) :
  add_child ch key c <> Raise NotImplementedError.
Proof. unfold add_child. destruct (dict_contains ch key); discriminate. Qed.

Lemma diff_json_prepared_supported (source destination : value) :
  prepared source = true -> prepared destination = true ->
  diff_json source destination <> Raise NotImplementedError.
Proof.
  revert destination.
  induction source as [a|s IH|s|l _] using value_nested_ind;
    intros destination Hs Hd;
    (match goal with
     | |- diff_json ?src _ <> _ =>
         destruct (pytype_eqb (type_of src) (type_of destination)) eqn:Ety;
         [|rewrite (diff_json_type _ _ Ety); discriminate]
     end).
  - simpl in *. rewrite Ety, Hs. simpl.
    match goal with |- (if ?c then _ else _) <> _ => destruct c end;
      discriminate.
  - destruct destination as [[]|d| |]; try discriminate Ety.
    rewrite diff_json_dict.
    destruct (for_each _ _ _) as [ch|e] eqn:Eloop; simpl; [discriminate|].
    intros H. injection H as ->.
    destruct (for_each_raise _ _ _ _ Eloop) as [key [ch [_ Hb]]].
    revert Hb. unfold diff_dict_key, dict_getitem.
    destruct (negb (dict_contains s key)).
    { destruct (dict_get d key); simpl; [|discriminate].
      apply add_child_not_NotImplementedError. }
    destruct (negb (dict_contains d key)).
    { destruct (dict_get s key); simpl; [|discriminate].
      apply add_child_not_NotImplementedError. }
    destruct (dict_get s key) as [sv|] eqn:Es; simpl; [|discriminate].
    destruct (dict_get d key) as [dv|] eqn:Ed; simpl; [|discriminate].
    destruct (dict_get_In _ _ _ Es) as [k0 [Hin _]].
    rewrite Forall_forall in IH.
    pose proof (IH _ Hin dv (prepared_dict_get _ _ _ Hs Es)
                  (prepared_dict_get _ _ _ Hd Ed)) as Hrec. simpl in Hrec.
    destruct (diff_json sv dv) as [[c|]|e]; simpl.
    + apply add_child_not_NotImplementedError.
    + discriminate.
    + intros H. injection H as ->. apply Hrec. reflexivity.
  - destruct destination as [[]| |d|]; try discriminate Ety.
    rewrite diff_json_set.
    destruct (for_each _ _ _) as [ch|e] eqn:Eloop; simpl; [discriminate|].
    intros H. injection H as ->.
    destruct (for_each_raise _ _ _ _ Eloop) as [key [ch [_ Hb]]].
    revert Hb. unfold diff_set_key.
    destruct (negb (set_contains s key));
      [apply add_child_not_NotImplementedError|].
    destruct (negb (set_contains d key));
      [apply add_child_not_NotImplementedError|discriminate].
  - discriminate Hs.
Qed.

Lemma diff_json_prepared_ok (source destination : value) :
  prepared source = true -> prepared destination = true ->
  exists r, diff_json source destination = Ok r.
Proof.
  intros Hs Hd.
  destruct (diff_json_outcome source destination
              (prepared_sets_unique _ Hs)) as [H|H]; [exact H|].
  destruct (diff_json_prepared_supported _ _ Hs Hd H).
Qed.

(** X2. Whatever the two values are (lists, [None] and mixtures included),
    [diff_json] returns or raises [NotImplementedError]: its lookups
    [source[key]] and [destination[key]] never raise [KeyError], and the
    assertion of [add_child] never fails. *)
Theorem diff_json_raises_only_NotImplementedError (source destination : value) :
  sets_unique source = true ->
  (exists r, diff_json source destination = Ok r)
  \/ diff_json source destination = Raise NotImplementedError.
Proof. apply diff_json_outcome. Qed.

(** ** What "no diff" means *)

Lemma unique_dict_get {V} (s : list (atom * V)) (k : atom) (v : V) :
  unique_keys (dict_keys s) = true -> In (k, v) s -> dict_get s k = Some v.
Proof.
  induction s as [|[k0 v0] rest IH]; simpl; [contradiction|].
  rewrite andb_true_iff, negb_true_iff. intros [Hk0 Hu] [H|H].
  - injection H as -> ->. rewrite key_eqb_refl. reflexivity.
  - destruct (key_eqb k k0) eqn:E; [|apply IH; assumption].
    rewrite key_eqb_sym in E.
    rewrite (set_contains_congr _ _ _ E) in Hk0.
    rewrite (set_contains_In (dict_keys rest) k) in Hk0; [discriminate|].
    apply (in_map fst _ _ H).
Qed.

Lemma dict_get_all_None {V} (ch : list (atom * V)) :
  (forall key, dict_get ch key = None) -> ch = [].
Proof.
  destruct ch as [|[k c] rest]; [reflexivity|].
  intros H. specialize (H k). simpl in H. rewrite key_eqb_refl in H.
  discriminate.
Qed.

Lemma diff_json_dict_None (s d : list (atom * value)) :
  (exists r, diff_json (VDict s) (VDict d) = Ok r) ->
  diff_json (VDict s) (VDict d) = Ok None
  <-> forall key, spec_child s d key = Ok None.
Proof.
  intros [r Hr]. split.
  - intros H key. apply (diff_json_dict_children s d None H).
  - intros Hall. pose proof (diff_json_dict_children s d r Hr) as Hch.
    rewrite Hr. f_equal.
    rewrite diff_json_dict in Hr.
    destruct (for_each _ _ _) as [ch|e]; simpl in Hr; [|discriminate].
    injection Hr as <-.
    rewrite (dict_get_all_None ch); [reflexivity|].
    intros key. specialize (Hch key). rewrite Hall, child_of_return in Hch.
    congruence.
Qed.

Lemma set_child_None (s d : list atom) (k : atom) :
  set_child s d k = None <-> set_contains s k = true /\ set_contains d k = true.
Proof.
  unfold set_child.
  destruct (set_contains s k), (set_contains d k); simpl;
    split; try discriminate; auto; intros [? ?]; discriminate.
Qed.

Lemma diff_json_set_None (s d : list atom) :
  unique_keys s = true ->
  (exists r, diff_json (VSet s) (VSet d) = Ok r) ->
  diff_json (VSet s) (VSet d) = Ok None
  <-> (forall k, In k s -> set_contains d k = true)
      /\ (forall k, In k d -> set_contains s k = true).
Proof.
  intros Hu [r Hr].
  destruct (diff_json_set_children s d r Hu Hr) as [Hin Hout].
  assert (Hmem : forall k, In k s \/ In k d ->
             exists e, In e (set_union s d) /\ key_eqb k e = true).
  { intros k Hk. apply set_contains_true. rewrite set_contains_union.
    destruct Hk as [Hk|Hk]; rewrite (set_contains_In _ _ Hk);
      auto using orb_true_r. }
  split.
  - intros H. rewrite H in Hr. injection Hr as <-. simpl in Hin.
    split; intros k Hk.
    + destruct (Hmem k (or_introl Hk)) as [e [He Hke]].
      symmetry in Hin. destruct (proj1 (set_child_None s d e) (Hin e He))
        as [_ Hd]. rewrite (set_contains_congr _ _ _ Hke). exact Hd.
    + destruct (Hmem k (or_intror Hk)) as [e [He Hke]].
      symmetry in Hin. destruct (proj1 (set_child_None s d e) (Hin e He))
        as [Hs _]. rewrite (set_contains_congr _ _ _ Hke). exact Hs.
  - intros [Hsd Hds]. rewrite Hr. f_equal.
    rewrite diff_json_set in Hr.
    destruct (for_each _ _ _) as [ch|e]; simpl in Hr; [|discriminate].
    injection Hr as <-.
    rewrite (dict_get_all_None ch); [reflexivity|].
    intros key. rewrite <- child_of_return.
    destruct (set_contains (set_union s d) key) eqn:E; [|apply Hout, E].
    destruct (set_contains_true _ _ E) as [e [He Hke]].
    rewrite (child_of_congr _ _ _ Hke), (Hin e He).
    apply set_child_None.
    destruct (In_set_union _ _ _ He) as [H|H].
    + split; [apply set_contains_In, H|apply Hsd, H].
    + split; [apply Hds, H|apply set_contains_In, H].
Qed.

Lemma canonical_In (s : list (atom * value)) (k : atom) (v : value) :
  canonical (VDict s) = true -> In (k, v) s -> canonical v = true.
Proof.
  simpl. rewrite andb_true_iff, forallb_forall. intros [_ H] Hin.
  apply (H _ Hin).
Qed.

Lemma canonical_unique (s : list (atom * value)) :
  canonical (VDict s) = true -> unique_keys (dict_keys s) = true.
Proof. simpl. rewrite andb_true_iff. intros [H _]. exact H. Qed.

Lemma diff_json_None_same_value (s d : value) :
  canonical s = true -> canonical d = true ->
  diff_json s d = Ok None <-> same_value s d = true.
Proof.
  revert d.
  induction s as [a|s IH|s|l _] using value_nested_ind; intros d Hs Hd.
  - destruct d as [b| | |];
      try (split; [destruct a; discriminate|discriminate]).
    simpl in *. rewrite Hs.
    destruct (pytype_eqb (atom_type a) (atom_type b)); simpl;
      [|split; discriminate].
    destruct (atom_eq a b); simpl; split; congruence.
  - destruct d as [[]|d| |]; try (split; discriminate).
    rewrite (diff_json_dict_None s d (diff_json_canonical_ok _ _ Hs Hd)).
    simpl. rewrite andb_true_iff, !forallb_forall.
    rewrite Forall_forall in IH.
    split.
    + intros Hall. split.
      * intros [k v] Hin. simpl.
        specialize (Hall k). unfold spec_child in Hall.
        rewrite (unique_dict_get s k v (canonical_unique _ Hs) Hin) in Hall.
        destruct (dict_get d k) as [dv|] eqn:Ed; [|discriminate].
        apply (IH _ Hin dv); [| |exact Hall].
        -- apply (canonical_In _ _ _ Hs Hin).
        -- apply (canonical_dict_get _ _ _ Hd Ed).
      * intros [k dv] Hin. simpl.
        specialize (Hall k). unfold spec_child in Hall.
        rewrite (unique_dict_get d k dv (canonical_unique _ Hd) Hin) in Hall.
        destruct (dict_get s k) as [sv|] eqn:Es; [|discriminate].
        apply dict_contains_get. exists sv. exact Es.
    + intros [H1 H2] key. unfold spec_child.
      destruct (dict_get s key) as [sv|] eqn:Es.
      * destruct (dict_get_In _ _ _ Es) as [k [Hin Hk]].
        specialize (H1 _ Hin). simpl in H1.
        rewrite <- (dict_get_congr d _ _ Hk) in H1.
        destruct (dict_get d key) as [dv|] eqn:Ed; [|discriminate].
        apply (IH _ Hin dv); [| |exact H1].
        -- apply (canonical_In _ _ _ Hs Hin).
        -- apply (canonical_dict_get _ _ _ Hd Ed).
      * destruct (dict_get d key) as [dv|] eqn:Ed; [|reflexivity].
        destruct (dict_get_In _ _ _ Ed) as [k [Hin Hk]].
        specialize (H2 _ Hin). simpl in H2.
        rewrite <- (dict_contains_false_get s key) in Es.
        apply dict_contains_get in H2. destruct H2 as [sv H2].
        rewrite <- (dict_get_congr s _ _ Hk) in H2.
        apply dict_contains_false_get in Es. congruence.
  - destruct d as [[]| |d|]; try (split; discriminate).
    assert (Hu : unique_keys s = true).
    { simpl in Hs. apply andb_true_iff in Hs. apply Hs. }
    rewrite (diff_json_set_None s d Hu (diff_json_canonical_ok _ _ Hs Hd)).
    simpl. rewrite andb_true_iff, !forallb_forall. reflexivity.
  - discriminate Hs.
Qed.

(** X3. For canonical values, [diff_json] answers [None] exactly when the
    two values are the same: scalars of the same type that are equal,
    mappings with the same keys and the same values under each key, sets
    with the same elements. *)
Theorem diff_json_None_iff_same (source destination : value) :
  canonical source = true -> canonical destination = true ->
  diff_json source destination = Ok None
  <-> same_value source destination = true.
Proof. apply diff_json_None_same_value. Qed.

(** ** Swapping the two sides *)

Lemma diff_json_not_Miss (source destination : value) (side : string)
  (v : value) :
  diff_json source destination <> Ok (Some (Miss side v)).
Proof.
  destruct (pytype_eqb (type_of source) (type_of destination)) eqn:Ety;
    [|rewrite (diff_json_type _ _ Ety); discriminate].
  destruct source as [a|s|s|l].
  - simpl in *. rewrite Ety. simpl.
    destruct (is_scalar_atom a); [|discriminate].
    match goal with |- (if ?c then _ else _) <> _ => destruct c end;
      discriminate.
  - destruct destination as [[]|d| |]; try discriminate Ety.
    rewrite diff_json_dict.
    destruct (for_each _ _ _) as [ch|e]; simpl; [|discriminate].
    unfold return_diff. destruct (has_diff ch); discriminate.
  - destruct destination as [[]| |d|]; try discriminate Ety.
    rewrite diff_json_set.
    destruct (for_each _ _ _) as [ch|e]; simpl; [|discriminate].
    unfold return_diff. destruct (has_diff ch); discriminate.
  - simpl in *. rewrite Ety. discriminate.
Qed.

Lemma no_diff_swap (s d : value) :
  canonical s = true -> canonical d = true ->
  diff_json s d = Ok None -> diff_json d s = Ok None.
Proof.
  revert d.
  induction s as [a|s IH|s|l _] using value_nested_ind; intros d Hs Hd H.
  - apply (diff_json_None_same_value _ _ Hs Hd) in H.
    apply (diff_json_None_same_value _ _ Hd Hs).
    destruct d as [b| | |]; try discriminate H.
    simpl in *. rewrite pytype_eqb_sym, atom_eq_sym. exact H.
  - destruct d as [b|d| |]; try (apply (diff_json_None_same_value _ _ Hs Hd)
                                    in H; discriminate H).
    pose proof (proj1 (diff_json_dict_None s d
                         (diff_json_canonical_ok _ _ Hs Hd)) H) as Hall.
    apply (proj2 (diff_json_dict_None d s (diff_json_canonical_ok _ _ Hd Hs))).
    intros key. clear H. pose proof (Hall key) as H. unfold spec_child in *.
    destruct (dict_get s key) as [sv|] eqn:Es,
             (dict_get d key) as [dv|] eqn:Ed; try discriminate;
      [|reflexivity].
    destruct (dict_get_In _ _ _ Es) as [k [Hin _]].
    rewrite Forall_forall in IH. apply (IH _ Hin dv); [| |exact H].
    + apply (canonical_In _ _ _ Hs Hin).
    + apply (canonical_dict_get _ _ _ Hd Ed).
  - destruct d as [b| |d|]; try (apply (diff_json_None_same_value _ _ Hs Hd)
                                    in H; discriminate H).
    assert (Hus : unique_keys s = true).
    { simpl in Hs. apply andb_true_iff in Hs. apply Hs. }
    assert (Hud : unique_keys d = true).
    { simpl in Hd. apply andb_true_iff in Hd. apply Hd. }
    destruct (proj1 (diff_json_set_None s d Hus
                       (diff_json_canonical_ok _ _ Hs Hd)) H) as [H1 H2].
    apply (proj2 (diff_json_set_None d s Hud
                    (diff_json_canonical_ok _ _ Hd Hs))).
    split; assumption.
  - discriminate Hs.
Qed.

(** X4. For canonical values, when [diff_json(a, b)] is [None], so is
    [diff_json(b, a)]. *)
Theorem diff_json_None_symmetric (a b : value) :
  canonical a = true -> canonical b = true ->
  diff_json a b = Ok None -> diff_json b a = Ok None.
Proof. apply no_diff_swap. Qed.

(** X5. For two canonical mappings, a key has the child
    [Miss('DESTINATION', v)] in [diff_json(s, d)] exactly when it has the
    child [Miss('SOURCE', v)] in [diff_json(d, s)]: swapping the arguments
    swaps the side of every missing key and keeps its value. *)
Theorem diff_json_Miss_mirrored (s d : list (atom * value))
  (r r' : option diff) (key : atom) (v : value) :
  diff_json (VDict s) (VDict d) = Ok r ->
  diff_json (VDict d) (VDict s) = Ok r' ->
  child_of r key = Some (Miss "DESTINATION" v)
  <-> child_of r' key = Some (Miss "SOURCE" v).
Proof.
  intros Hr Hr'.
  pose proof (diff_json_dict_children s d r Hr key) as H.
  pose proof (diff_json_dict_children d s r' Hr' key) as H'.
  unfold spec_child in *.
  destruct (dict_get s key) as [sv|], (dict_get d key) as [dv|].
  - split; intros E.
    + rewrite E in H. destruct (diff_json_not_Miss _ _ _ _ H).
    + rewrite E in H'. destruct (diff_json_not_Miss _ _ _ _ H').
  - injection H as <-. injection H' as <-. split; congruence.
  - injection H as <-. injection H' as <-. split; discriminate.
  - injection H as <-. injection H' as <-. split; discriminate.
Qed.

(** * Further properties of the preparation *)

Section PrepareMore.
Variable py_str : value -> string.

Lemma prepare_diff_input_dict (item : atom * value)
  (items : list (atom * value)) (config : option DiffConfig) :
  prepare_diff_input py_str (VDict (item :: items)) config
  = (result <~ for_eachM (dict_turn py_str config) (item :: items) [] ;;
     ret (VDict result)).
Proof. reflexivity. Qed.

Lemma prepare_diff_input_scalars (first : value) (rest : list value)
  (config : option DiffConfig) :
  is_scalar first = true ->
  prepare_diff_input py_str (VList (first :: rest)) config
  = (s <~ lift (set_of_list (first :: rest)) ;; ret (VSet s)).
Proof. intros H. simpl. rewrite H. reflexivity. Qed.

Lemma record_step_inv (prep : value -> M value) (pk : primary_key_attr)
  (inner : value) (result result' : list (atom * value))
  (log log' : list string) :
  record_step py_str prep pk inner result log = (Ok result', log') ->
  exists converted lg,
    prep inner log = (Ok converted, lg)
    /\ (result' = result
        \/ exists key, result' = dict_setitem result key converted).
Proof.
  unfold record_step, bindM, lift.
  destruct (prep inner log) as [[converted|e] log1]; [|discriminate].
  destruct (k0 <- record_key py_str pk converted ;; hashable k0)
    as [key|e]; [|discriminate].
  destruct (dict_contains result key); simpl.
  - destruct (dict_getitem result key); [|discriminate].
    unfold logging_info, ret. intros H. injection H as <- _.
    exists converted, log1. auto.
  - unfold ret. intros H. injection H as <- _.
    exists converted, log1. split; [reflexivity|]. right. exists key.
    reflexivity.
Qed.

Lemma dict_contains_setitem {V} (d : list (atom * V)) (key k : atom) (v : V) :
  dict_contains (dict_setitem d key v) k = dict_contains d k || key_eqb k key.
Proof.
  destruct (dict_contains (dict_setitem d key v) k) eqn:E.
  - apply dict_contains_get in E. destruct E as [w E].
    rewrite dict_get_setitem in E.
    destruct (key_eqb k key); [rewrite orb_true_r; reflexivity|].
    rewrite orb_false_r. symmetry. apply dict_contains_get. eauto.
  - apply dict_contains_false_get in E. rewrite dict_get_setitem in E.
    destruct (key_eqb k key); [discriminate|].
    rewrite orb_false_r. symmetry. apply dict_contains_false_get, E.
Qed.

Lemma dict_setitem_unique {V} (d : list (atom * V)) (key : atom) (v : V) :
  unique_keys (dict_keys d) = true ->
  unique_keys (dict_keys (dict_setitem d key v)) = true.
Proof.
  induction d as [|[k w] rest IH]; simpl; [reflexivity|].
  rewrite andb_true_iff, negb_true_iff. intros [Hk Hu].
  destruct (key_eqb key k) eqn:E; simpl.
  - rewrite Hk, Hu. reflexivity.
  - rewrite (IH Hu), andb_true_r, dict_contains_keys, dict_contains_setitem,
      <- dict_contains_keys, Hk, key_eqb_sym, E.
    reflexivity.
Qed.

Lemma dict_setitem_prepared (result : list (atom * value)) (key : atom)
  (v : value) :
  prepared (VDict result) = true -> prepared v = true ->
  prepared (VDict (dict_setitem result key v)) = true.
Proof.
  simpl. rewrite !andb_true_iff. intros [Hu Hall] Hv. split.
  - apply dict_setitem_unique, Hu.
  - apply dict_setitem_forallb; auto.
Qed.

Lemma set_of_list_unique (elems : list value) (s : list atom) :
  set_of_list elems = Ok s -> unique_keys s = true.
Proof.
  unfold set_of_list.
  apply (for_each_inv _ (fun s => unique_keys s = true)); [|reflexivity].
  intros x st st' _ Hst. destruct (hashable x); simpl; [|discriminate].
  intros H. injection H as <-. apply unique_keys_add, Hst.
Qed.

Lemma prepare_returns_prepared (data : value) :
  forall config log v log',
    prepare_diff_input py_str data config log = (Ok v, log') ->
    prepared v = true.
Proof.
  induction data as [a|items IH|s|elems IH] using value_nested_ind;
    intros config log v log' H.
  - simpl in H. destruct (is_scalar_atom a) eqn:E; [|discriminate].
    injection H as <- _. exact E.
  - destruct items as [|item items]; [injection H as <- _; reflexivity|].
    rewrite prepare_diff_input_dict in H. unfold bindM at 1 in H.
    destruct (for_eachM _ _ _ _) as [[result|e] lg] eqn:Eloop;
      [|discriminate].
    injection H as <- _. revert Eloop.
    apply (for_eachM_inv _ (fun r => prepared (VDict r) = true));
      [|reflexivity].
    intros [key value] st lg0 st' lg1 Hin Hst. unfold dict_turn.
    destruct (ignored config key); [intros E; injection E as <- _; exact Hst|].
    unfold bindM.
    destruct (prepare_diff_input py_str value _ lg0) as [[converted|e] lg2]
      eqn:Eprep; [|discriminate].
    intros E. injection E as <- _.
    apply dict_setitem_prepared; [exact Hst|].
    rewrite Forall_forall in IH. apply (IH _ Hin _ _ _ _ Eprep).
  - discriminate H.
  - destruct elems as [|first rest]; [injection H as <- _; reflexivity|].
    destruct (is_scalar first) eqn:Esc.
    + rewrite (prepare_diff_input_scalars _ _ _ Esc) in H.
      unfold bindM, lift in H.
      destruct (set_of_list (first :: rest)) as [s|e] eqn:Es; [|discriminate].
      injection H as <- _. apply (set_of_list_unique _ _ Es).
    + destruct first as [a|items| |]; try (simpl in H; discriminate H).
      { simpl in H, Esc. rewrite Esc in H. destruct a; discriminate H. }
      destruct config as [cfg|]; [|discriminate H].
      rewrite prepare_diff_input_records in H.
      destruct (primary_key_truthy (primary_key cfg)); [|discriminate H].
      unfold bindM at 1 in H.
      destruct (for_eachM _ _ _ _) as [[result|e] lg] eqn:Eloop;
        [|discriminate].
      injection H as <- _. revert Eloop.
      apply (for_eachM_inv _ (fun r => prepared (VDict r) = true));
        [|reflexivity].
      intros inner st lg0 st' lg1 Hin Hst Hstep.
      destruct (record_step_inv _ _ _ _ _ _ _ Hstep)
        as [converted [lg2 [Hprep [->|[key ->]]]]]; [exact Hst|].
      apply dict_setitem_prepared; [exact Hst|].
      rewrite Forall_forall in IH. apply (IH _ Hin _ _ _ _ Hprep).
Qed.

(** X6. Whatever [prepare_diff_input] returns is ready for [diff_json]: a
    scalar, a mapping with unique keys whose values are of that kind, or a
    set without repeated elements; no list is left at any depth. *)
Theorem prepare_diff_input_returns_prepared (data v : value)
  (config : option DiffConfig) (log log' : list string) :
  prepare_diff_input py_str data config log = (Ok v, log') ->
  prepared v = true.
Proof. apply prepare_returns_prepared. Qed.

(** X7. When both sides have been prepared, [diff_json] returns: it raises
    no exception on what [prepare_diff_input] returns. *)
Theorem diff_json_returns_after_preparation (source destination s d : value)
  (cs cd : option DiffConfig) (log log1 log2 : list string) :
  prepare_diff_input py_str source cs log = (Ok s, log1) ->
  prepare_diff_input py_str destination cd log1 = (Ok d, log2) ->
  exists r, diff_json s d = Ok r.
Proof.
  intros Hs Hd. apply diff_json_prepared_ok.
  - apply (prepare_returns_prepared _ _ _ _ _ Hs).
  - apply (prepare_returns_prepared _ _ _ _ _ Hd).
Qed.
End PrepareMore.

Section PrepareCases.
Variable py_str : value -> string.

(** ** Lists of scalars *)

Lemma set_of_list_atoms (l : list atom) (acc : list atom) :
  for_each (fun x s => a <- hashable x ;; Ok (set_add s a)) (map VAtom l) acc
  = Ok (fold_left set_add l acc).
Proof.
  revert acc. induction l as [|a l IH]; intros acc; simpl; [reflexivity|].
  apply IH.
Qed.

(** X8. A list of hashable values whose first element is a scalar is
    prepared to a set, whatever the config and without logging: the set has
    no element twice and has exactly the elements of the list, so repeated
    elements (and equal numbers of different types) collapse. *)
Theorem prepare_scalar_list_is_set (a : atom) (l : list atom)
  (config : option DiffConfig) (log : list string) :
  is_scalar_atom a = true ->
  exists s,
    prepare_diff_input py_str (VList (map VAtom (a :: l))) config log
    = (Ok (VSet s), log)
    /\ unique_keys s = true
    /\ forall k, set_contains s k = set_contains (a :: l) k.
Proof.
  intros Ha. exists (set_of (a :: l)). split; [|split].
  - change (map VAtom (a :: l)) with (VAtom a :: map VAtom l).
    rewrite prepare_diff_input_scalars by exact Ha.
    unfold bindM, lift, set_of_list.
    change (VAtom a :: map VAtom l) with (map VAtom (a :: l)).
    rewrite set_of_list_atoms. reflexivity.
  - apply unique_keys_set_of.
  - intros k. apply set_contains_set_of.
Qed.

Lemma for_each_raises {A S} (body : A -> S -> result S) (e : exn) (x : A)
  (l : list A) :
  (forall y st, (exists st', body y st = Ok st') \/ body y st = Raise e) ->
  (forall st, body x st = Raise e) ->
  In x l -> forall st, for_each body l st = Raise e.
Proof.
  intros Hall Hx. induction l as [|y rest IH]; intros Hin st; simpl;
    [contradiction|].
  destruct (Hall y st) as [[st' E]|E]; rewrite E; simpl; [|reflexivity].
  destruct Hin as [->|Hin]; [rewrite Hx in E; discriminate|].
  apply IH, Hin.
Qed.

(** X9. A list whose first element is a scalar and which holds a mapping,
    a list or a set anywhere after it is not prepared: [set(data)] raises
    [TypeError], and nothing is logged. *)
Theorem prepare_scalar_list_unhashable (first x : value) (rest : list value)
  (config : option DiffConfig) (log : list string) :
  is_scalar first = true ->
  In x rest ->
  (forall a, x <> VAtom a) ->
  prepare_diff_input py_str (VList (first :: rest)) config log
  = (Raise TypeError, log).
Proof.
  intros Hf Hin Hx.
  rewrite prepare_diff_input_scalars by exact Hf.
  unfold bindM, lift, set_of_list.
  rewrite (for_each_raises _ TypeError x); [reflexivity| | |right; exact Hin].
  - intros y st. destruct y; simpl; eauto.
  - intros st. destruct x as [a| | |]; try reflexivity.
    destruct (Hx a eq_refl).
Qed.

(** ** Unsupported data *)

(** X10. A list whose first element is neither a scalar nor a mapping (a
    list, [None], a set) is rejected with [NotImplementedError], whatever
    follows it and whatever the config: lists of lists are not supported. *)
Theorem prepare_list_unsupported (first : value) (rest : list value)
  (config : option DiffConfig) (log : list string) :
  is_scalar first = false ->
  type_of first <> TDict ->
  prepare_diff_input py_str (VList (first :: rest)) config log
  = (Raise NotImplementedError, log).
Proof.
  intros Hs Hd. simpl. rewrite Hs.
  destruct first as [[]| | |]; try reflexivity; try discriminate Hs.
  destruct (Hd eq_refl).
Qed.

(** ** Ignored keys *)

Lemma ignored_congr (config : option DiffConfig) (a b : atom) :
  key_eqb a b = true -> ignored config a = ignored config b.
Proof.
  intros H. unfold ignored. destruct config as [cfg|]; [|reflexivity].
  destruct (ignore_keys cfg) as [[|k ik]|]; try reflexivity.
  apply set_contains_congr, H.
Qed.

Lemma dict_loop_keys (config : option DiffConfig) (items : list (atom * value)) :
  forall result log result' log',
    for_eachM (dict_turn py_str config) items result log = (Ok result', log') ->
    forall key,
      dict_contains result' key
      = dict_contains result key
        || (dict_contains items key && negb (ignored config key)).
Proof.
  induction items as [|[k v] rest IH]; intros result log result' log' H key.
  - injection H as <- _. simpl. rewrite orb_false_r. reflexivity.
  - simpl in H. unfold bindM at 1 in H.
    destruct (ignored config k) eqn:Eig.
    + simpl in H. rewrite (IH _ _ _ _ H key). simpl.
      destruct (key_eqb key k) eqn:E; [|reflexivity].
      rewrite (ignored_congr _ _ _ E), Eig. simpl.
      rewrite andb_false_r. reflexivity.
    + unfold bindM at 1 in H.
      destruct (prepare_diff_input py_str v _ log) as [[converted|e] lg];
        [|discriminate].
      simpl in H. rewrite (IH _ _ _ _ H key), dict_contains_setitem. simpl.
      destruct (key_eqb key k) eqn:E; simpl.
      * rewrite (ignored_congr _ _ _ E), Eig. simpl.
        rewrite !orb_true_r. reflexivity.
      * rewrite orb_false_r. reflexivity.
Qed.

(** X11. The keys of a prepared mapping are the keys of the mapping that
    are not in [config.ignore_keys]: an ignored key is dropped, every other
    key is kept, and no key is added. *)
Theorem prepare_dict_drops_ignored_keys (items : list (atom * value))
  (config : option DiffConfig) (log log' : list string) (v : value) :
  prepare_diff_input py_str (VDict items) config log = (Ok v, log') ->
  exists result,
    v = VDict result
    /\ forall key,
        dict_contains result key
        = dict_contains items key && negb (ignored config key).
Proof.
  destruct items as [|item items].
  - intros H. injection H as <- _. exists []. auto.
  - rewrite prepare_diff_input_dict. unfold bindM at 1.
    destruct (for_eachM _ _ _ _) as [[result|e] lg] eqn:Eloop; [|discriminate].
    intros H. injection H as <- _. exists result. split; [reflexivity|].
    intros key. rewrite (dict_loop_keys _ _ _ _ _ _ Eloop key). reflexivity.
Qed.

(** ** Data without lists *)

Lemma dict_setitem_fresh {V} (d : list (atom * V)) (key : atom) (v : V) :
  dict_contains d key = false -> dict_setitem d key v = (d ++ [(key, v)])%list.
Proof.
  induction d as [|[k w] rest IH]; simpl; [reflexivity|].
  rewrite orb_false_iff. intros [-> H]. rewrite (IH H). reflexivity.
Qed.

Lemma unique_keys_middle (a b : list atom) (k : atom) :
  unique_keys (a ++ k :: b) = true -> set_contains a k = false.
Proof.
  induction a as [|x a IH]; simpl; [reflexivity|].
  intros H. apply andb_true_iff in H. destruct H as [Hx Hu].
  apply negb_true_iff in Hx. rewrite set_contains_app in Hx. simpl in Hx.
  apply orb_false_iff in Hx. destruct Hx as [_ Hx].
  apply orb_false_iff in Hx. destruct Hx as [Hx _].
  rewrite key_eqb_sym, Hx. simpl. apply IH, Hu.
Qed.

Lemma plain_dict_loop (items : list (atom * value)) :
  Forall (fun kv => forall log,
              prepare_diff_input py_str (snd kv) None log = (Ok (snd kv), log))
    items ->
  forall result log,
    unique_keys (dict_keys (result ++ items)) = true ->
    for_eachM (dict_turn py_str None) items result log
    = (Ok (result ++ items)%list, log).
Proof.
  induction 1 as [|[k v] rest Hv _ IH]; intros result log Hu; simpl.
  - rewrite app_nil_r. reflexivity.
  - unfold bindM. simpl in Hv. rewrite Hv.
    assert (Hfresh : dict_contains result k = false).
    { unfold dict_keys in Hu. rewrite map_app in Hu. simpl in Hu.
      rewrite <- dict_contains_keys. apply (unique_keys_middle _ _ _ Hu). }
    unfold ret at 1. rewrite (dict_setitem_fresh _ _ _ Hfresh).
    replace (result ++ (k, v) :: rest)%list
      with ((result ++ [(k, v)]) ++ rest)%list
      by (rewrite <- app_assoc; reflexivity).
    apply IH. rewrite <- app_assoc. exact Hu.
Qed.

(** X12. Data without lists is left as it is: for a scalar, or a mapping
    (with unique keys) of such data at any depth, preparation without a
    config returns the data itself and logs nothing. *)
Theorem prepare_plain_identity (v : value) (log : list string) :
  plain v = true -> prepare_diff_input py_str v None log = (Ok v, log).
Proof.
  revert log.
  induction v as [a|items IH|s|elems _] using value_nested_ind;
    intros log Hp; try discriminate Hp.
  - simpl in *. rewrite Hp. reflexivity.
  - destruct items as [|item items]; [reflexivity|].
    rewrite prepare_diff_input_dict. unfold bindM at 1.
    simpl in Hp. apply andb_true_iff in Hp. destruct Hp as [Hu Hall].
    rewrite (plain_dict_loop (item :: items)); [reflexivity| |exact Hu].
    rewrite Forall_forall in *. intros kv Hkv lg.
    apply (IH _ Hkv).
    change (forallb (fun kv => plain (snd kv)) (item :: items) = true) in Hall.
    rewrite forallb_forall in Hall. apply (Hall _ Hkv).
Qed.
End PrepareCases.

Section PrepareLog.
Variable py_str : value -> string.

(** ** The log *)

Lemma log_extends_refl (log : list string) : log_extends py_str log log.
Proof. exists []. rewrite app_nil_r. auto. Qed.

Lemma log_extends_trans (l1 l2 l3 : list string) :
  log_extends py_str l1 l2 -> log_extends py_str l2 l3 ->
  log_extends py_str l1 l3.
Proof.
  intros [e1 [-> H1]] [e2 [-> H2]]. exists (e1 ++ e2)%list.
  rewrite app_assoc. split; [reflexivity|]. apply Forall_app. auto.
Qed.

Lemma for_eachM_log {A S} (body : A -> S -> M S) (l : list A) :
  (forall x st lg r lg',
      In x l -> body x st lg = (r, lg') -> log_extends py_str lg lg') ->
  forall st lg r lg',
    for_eachM body l st lg = (r, lg') -> log_extends py_str lg lg'.
Proof.
  induction l as [|x rest IH]; intros Hbody st lg r lg' H; simpl in H.
  - injection H as _ <-. apply log_extends_refl.
  - unfold bindM at 1 in H.
    destruct (body x st lg) as [[st1|e] lg1] eqn:E.
    + apply (log_extends_trans _ lg1).
      * apply (Hbody x st lg _ _ (or_introl eq_refl) E).
      * apply (IH (fun y s l0 r0 l1 Hy => Hbody y s l0 r0 l1 (or_intror Hy))
                 _ _ _ _ H).
    + injection H as _ <-.
      apply (Hbody x st lg _ _ (or_introl eq_refl) E).
Qed.

Lemma record_step_log (prep : value -> M value) (pk : primary_key_attr)
  (inner : value) (acc : list (atom * value)) (lg lg' : list string)
  (r : result (list (atom * value))) :
  (forall l0 r0 l1, prep inner l0 = (r0, l1) -> log_extends py_str l0 l1) ->
  record_step py_str prep pk inner acc lg = (r, lg') ->
  log_extends py_str lg lg'.
Proof.
  intros Hprep. unfold record_step, bindM, lift.
  destruct (prep inner lg) as [[converted|e] lg1] eqn:E;
    pose proof (Hprep _ _ _ E) as H1;
    [|intros H; injection H as _ <-; exact H1].
  destruct (k0 <- record_key py_str pk converted ;; hashable k0)
    as [key|e]; [|intros H; injection H as _ <-; exact H1].
  destruct (dict_contains acc key); simpl.
  - destruct (dict_getitem acc key) as [kept|e];
      [|intros H; injection H as _ <-; exact H1].
    unfold logging_info, ret. intros H. injection H as _ <-.
    apply (log_extends_trans _ lg1); [exact H1|].
    exists [duplicates_message py_str converted kept].
    split; [reflexivity|]. constructor; [|constructor]. eauto.
  - unfold ret. intros H. injection H as _ <-. exact H1.
Qed.

Lemma prepare_log (data : value) :
  forall config log r log',
    prepare_diff_input py_str data config log = (r, log') ->
    log_extends py_str log log'.
Proof.
  induction data as [a|items IH|s|elems IH] using value_nested_ind;
    intros config log r log' H.
  - simpl in H. destruct (is_scalar_atom a); injection H as _ <-;
      apply log_extends_refl.
  - destruct items as [|item items];
      [injection H as _ <-; apply log_extends_refl|].
    rewrite prepare_diff_input_dict in H. unfold bindM at 1 in H.
    destruct (for_eachM _ _ _ _) as [[result|e] lg] eqn:Eloop;
      injection H as _ <-; revert Eloop; apply for_eachM_log;
      intros [key value] st lg0 r0 lg1 Hin; unfold dict_turn;
      (destruct (ignored config key);
       [intros E; injection E as _ <-; apply log_extends_refl|]);
      unfold bindM;
      destruct (prepare_diff_input py_str value _ lg0) as [[converted|e'] lg2]
        eqn:Eprep;
      intros E; injection E as _ <-;
      rewrite Forall_forall in IH; apply (IH _ Hin _ _ _ _ Eprep).
  - injection H as _ <-. apply log_extends_refl.
  - destruct elems as [|first rest];
      [injection H as _ <-; apply log_extends_refl|].
    destruct (is_scalar first) eqn:Esc.
    + rewrite (prepare_diff_input_scalars _ _ _ _ Esc) in H.
      unfold bindM, lift in H.
      destruct (set_of_list (first :: rest)); injection H as _ <-;
        apply log_extends_refl.
    + destruct first as [a|items| |];
        try (simpl in H; injection H as _ <-; apply log_extends_refl).
      { simpl in H, Esc. rewrite Esc in H.
        destruct a; injection H as _ <-; apply log_extends_refl. }
      destruct config as [cfg|];
        [|injection H as _ <-; apply log_extends_refl].
      rewrite prepare_diff_input_records in H.
      destruct (primary_key_truthy (primary_key cfg));
        [|injection H as _ <-; apply log_extends_refl].
      unfold bindM at 1 in H.
      destruct (for_eachM _ _ _ _) as [[result|e] lg] eqn:Eloop;
        injection H as _ <-; revert Eloop; apply for_eachM_log;
        intros inner st lg0 r0 lg1 Hin; apply record_step_log;
        intros l0 r1 l1; rewrite Forall_forall in IH; apply (IH _ Hin).
Qed.

(** X13. Preparation only appends to the log, and only duplicate
    diagnostics: whether it returns or raises, the log it leaves is the log
    it found followed by messages of the form
    ["Duplicates found:\n<dropped>\n---\n<kept>"]. *)
Theorem prepare_only_appends_duplicates (data : value)
  (config : option DiffConfig) (log log' : list string)
  (r : result value) :
  prepare_diff_input py_str data config log = (r, log') ->
  log_extends py_str log log'.
Proof. apply prepare_log. Qed.

(** ** Records without any candidate field *)

Lemma record_key_none (cands : list atom) (items : list (atom * value)) :
  (forall c, In c cands -> dict_contains items c = false) ->
  record_key py_str (PKList cands) (VDict items) = Ok (VAtom ANone).
Proof.
  intros H. simpl. induction cands as [|c cands IH]; simpl; [reflexivity|].
  rewrite (H c (or_introl eq_refl)). apply IH.
  intros c' Hc'. apply H. right. exact Hc'.
Qed.

(** X14. In a list of mappings, an element whose prepared form has none of
    the candidate fields gets the key [None]: preparing the list up to this
    element stores it under [None] when no element before it was stored
    there, and otherwise drops it as a duplicate of the element stored
    under [None], so of all such elements of a list only the first is
    kept. *)
Theorem unmatched_record_gets_None_key (cfg : DiffConfig) (cands : list atom)
  (raw result items : list (atom * value)) (pre tl : list value)
  (inner : value) (log log1 log2 : list string) :
  (pre ++ [inner])%list = VDict raw :: tl ->
  primary_key cfg = PKList cands ->
  primary_key_truthy (primary_key cfg) = true ->
  prepare_diff_input py_str (VList pre) (Some cfg) log
  = (Ok (VDict result), log1) ->
  prepare_diff_input py_str inner (Some cfg) log1 = (Ok (VDict items), log2) ->
  (forall c, In c cands -> dict_contains items c = false) ->
  prepare_diff_input py_str (VList (pre ++ [inner])) (Some cfg) log
  = match dict_get result ANone with
    | Some kept =>
        (Ok (VDict result),
         (log2 ++ [duplicates_message py_str (VDict items) kept])%list)
    | None => (Ok (VDict (dict_setitem result ANone (VDict items))), log2)
    end.
Proof.
  intros Happ Hpk Ht Hpre Hprep Hc.
  rewrite (prepare_list_split py_str _ _ _ _ _ _ _ _ Happ Ht Hpre).
  unfold bindM at 1. simpl for_eachM. unfold bindM at 1.
  unfold record_turn at 1, record_step, bindM, lift.
  rewrite Hprep, Hpk, (record_key_none _ _ Hc). simpl.
  unfold dict_getitem.
  destruct (dict_get result ANone) as [kept|] eqn:E.
  - replace (dict_contains result ANone) with true
      by (symmetry; apply dict_contains_get; eauto).
    reflexivity.
  - apply dict_contains_false_get in E. rewrite E. reflexivity.
Qed.
End PrepareLog.

(** * Properties of the printing *)

Lemma getitem_thenL_eq {V} (key : atom)
  (k : V -> records -> result unit * records) (d : list (atom * V))
  (log : records) :
  getitem_thenL key k d log
  = match dict_get d key with
    | Some v => k v log
    | None => (Raise KeyError, log)
    end.
Proof.
  induction d as [|[k' v] rest IH]; simpl; [reflexivity|].
  destruct (key_eqb key k'); [reflexivity|exact IH].
Qed.

Lemma In_dict_keys_get {V} (d : list (atom * V)) (key : atom) :
  In key (dict_keys d) -> exists v, dict_get d key = Some v.
Proof.
  intros H. apply dict_contains_get. rewrite <- dict_contains_keys.
  apply set_contains_In, H.
Qed.

Lemma flat_map_ext_in {A B} (f g : A -> list B) (l : list A) :
  (forall x, In x l -> f x = g x) -> flat_map f l = flat_map g l.
Proof.
  induction l as [|x rest IH]; intros H; simpl; [reflexivity|].
  rewrite (H x (or_introl eq_refl)), IH; [reflexivity|].
  intros y Hy. apply H. right. exact Hy.
Qed.

Lemma for_eachL_cons {A} (body : A -> records -> result unit * records)
  (x : A) (rest : list A) (log : records) :
  for_eachL body (x :: rest) log
  = match body x log with
    | (Ok _, log') => for_eachL body rest log'
    | (Raise e, log') => (Raise e, log')
    end.
Proof. reflexivity. Qed.

Section RenderFacts.
Variable py_str : value -> string.
Variable sorted : list atom -> result (list atom).

(** Python's [sorted] rearranges its argument, raises nothing but
    [TypeError], and sorts any list of strings. *)
Hypothesis sorted_perm : forall l l', sorted l = Ok l' -> Permutation l l'.
Hypothesis sorted_TypeError : forall l e, sorted l = Raise e -> e = TypeError.
Hypothesis sorted_strs :
  forall l, forallb is_str l = true -> exists l', sorted l = Ok l'.

Lemma print_node_DictDiff (ch : list (atom * diff)) (prefix : string)
  (log : records) :
  print_node py_str sorted (DictDiff ch) prefix log
  = match sorted (dict_keys ch) with
    | Raise e => (Raise e, log)
    | Ok keys => for_eachL (print_child py_str sorted ch prefix) keys log
    end.
Proof. reflexivity. Qed.

Lemma print_node_TypeError (d : diff) :
  forall prefix log e log',
    print_node py_str sorted d prefix log = (Raise e, log') -> e = TypeError.
Proof.
  induction d as [s d|s d|side v|ch IH] using diff_nested_ind;
    intros prefix log e log' H; try discriminate H.
  rewrite print_node_DictDiff in H.
  destruct (sorted (dict_keys ch)) as [keys|e0] eqn:Es.
  - assert (Hkeys : forall k, In k keys -> In k (dict_keys ch)).
    { intros k Hk. apply (Permutation_in _ (Permutation_sym (sorted_perm _ _ Es))).
      exact Hk. }
    clear Es. revert log H.
    induction keys as [|key rest IHk]; intros log H; simpl in H;
      [discriminate|].
    destruct (print_child py_str sorted ch prefix key log) as [[[]|e1] lg] eqn:E.
    + apply (IHk (fun k Hk => Hkeys k (or_intror Hk)) lg H).
    + injection H as <- _. revert E. unfold print_child.
      rewrite getitem_thenL_eq.
      destruct (In_dict_keys_get ch key (Hkeys key (or_introl eq_refl)))
        as [c Hc]. rewrite Hc.
      destruct (concat_key prefix key) as [p|e2] eqn:Ec.
      * destruct (dict_get_In _ _ _ Hc) as [k' [Hin _]].
        rewrite Forall_forall in IH. apply (IH _ Hin).
      * intros E. injection E as <- _.
        destruct key; try discriminate Ec; injection Ec as <-; reflexivity.
  - injection H as <- _. apply (sorted_TypeError _ _ Es).
Qed.

(** X15. [print_diff] raises [TypeError] on every [DictDiff] that has a
    child under a key that is no string (an integer primary key, an element
    of a set of numbers, the key [None]): the prefix of the child is built
    by [prefix + "|" + key]. *)
Theorem print_diff_TypeError_on_non_str_key (ch : list (atom * diff))
  (key : atom) (prefix : string) (log : records) :
  In key (dict_keys ch) ->
  is_str key = false ->
  exists log',
    print_diff py_str sorted (Some (DictDiff ch)) prefix log
    = (Raise TypeError, log').
Proof.
  intros Hkey Hstr. unfold print_diff. rewrite print_node_DictDiff.
  destruct (sorted (dict_keys ch)) as [keys|e0] eqn:Es.
  - assert (Hkeys : forall k, In k keys -> In k (dict_keys ch)).
    { intros k Hk. apply (Permutation_in _ (Permutation_sym (sorted_perm _ _ Es))).
      exact Hk. }
    assert (Hin : In key keys)
      by (apply (Permutation_in _ (sorted_perm _ _ Es)), Hkey).
    clear Es. revert log.
    induction keys as [|k rest IHk]; intros log; simpl; [contradiction|].
    destruct (print_child py_str sorted ch prefix k log) as [[[]|e1] lg] eqn:E.
    + destruct Hin as [->|Hin].
      * revert E. unfold print_child. rewrite getitem_thenL_eq.
        destruct (In_dict_keys_get ch key Hkey) as [c Hc]. rewrite Hc.
        destruct key; try discriminate Hstr; discriminate.
      * apply (IHk (fun k0 Hk0 => Hkeys k0 (or_intror Hk0)) Hin).
    + exists lg. f_equal. f_equal. revert E. unfold print_child.
      rewrite getitem_thenL_eq.
      destruct (In_dict_keys_get ch k (Hkeys k (or_introl eq_refl)))
        as [c Hc]. rewrite Hc.
      destruct (concat_key prefix k) as [p|e2] eqn:Ec.
      * apply print_node_TypeError.
      * intros E. injection E as <- _.
        destruct k; try discriminate Ec; injection Ec as <-; reflexivity.
  - exists log. rewrite (sorted_TypeError _ _ Es). reflexivity.
Qed.

Lemma print_node_lines (d : diff) :
  forall prefix log,
    str_keys d = true ->
    exists out,
      print_node py_str sorted d prefix log = (Ok tt, (log ++ out)%list)
      /\ Permutation out (leaf_lines py_str d prefix).
Proof.
  induction d as [s d|s d|side v|ch IH] using diff_nested_ind;
    intros prefix log Hd;
    try (eexists; split; [reflexivity|apply Permutation_refl]).
  simpl in Hd. apply andb_true_iff in Hd. destruct Hd as [Hu Hall].
  rewrite forallb_forall in Hall. rewrite Forall_forall in IH.
  rewrite print_node_DictDiff.
  destruct (sorted_strs (dict_keys ch)) as [keys Es].
  { apply forallb_forall. intros k Hk. apply in_map_iff in Hk.
    destruct Hk as [kc [<- Hkc]]. specialize (Hall _ Hkc).
    apply andb_true_iff in Hall. apply Hall. }
  rewrite Es. pose proof (sorted_perm _ _ Es) as Hperm.
  set (g := fun k => match dict_get ch k with
                     | Some c =>
                         match k with
                         | AStr s => leaf_lines py_str c (prefix ++ "|" ++ s)
                         | _ => []
                         end
                     | None => []
                     end).
  assert (Hloop : forall l lg,
             (forall k, In k l -> In k (dict_keys ch)) ->
             exists out,
               for_eachL (print_child py_str sorted ch prefix) l lg
               = (Ok tt, (lg ++ out)%list)
               /\ Permutation out (flat_map g l)).
  { induction l as [|k rest IHl]; intros lg Hl.
    - exists []. simpl. rewrite app_nil_r. auto.
    - assert (Hk : In k (dict_keys ch)) by (apply Hl; left; reflexivity).
      apply in_map_iff in Hk. destruct Hk as [[k0 c] [Hk0 Hkc]].
      simpl in Hk0. subst k0.
      pose proof (unique_dict_get ch k c Hu Hkc) as Hget.
      pose proof (Hall _ Hkc) as Hkc'. simpl in Hkc'.
      apply andb_true_iff in Hkc'. destruct Hkc' as [Hstr Hc].
      destruct k as [| | | |s]; try discriminate Hstr.
      destruct (IH _ Hkc (prefix ++ "|" ++ s) lg Hc) as [out1 [E1 P1]].
      simpl in E1.
      destruct (IHl (lg ++ out1)%list (fun k0 Hk0 => Hl k0 (or_intror Hk0)))
        as [out2 [E2 P2]].
      exists (out1 ++ out2)%list. split.
      + rewrite for_eachL_cons. unfold print_child at 1.
        rewrite getitem_thenL_eq, Hget. simpl concat_key. cbv iota.
        rewrite E1, E2, app_assoc. reflexivity.
      + change (flat_map g (AStr s :: rest))
          with (g (AStr s) ++ flat_map g rest)%list.
        unfold g at 1. rewrite Hget. apply Permutation_app; assumption. }
  destruct (Hloop keys log) as [out [E P]].
  { intros k Hk. apply (Permutation_in _ (Permutation_sym Hperm)), Hk. }
  exists out. split; [exact E|].
  apply (Permutation_trans P).
  apply (Permutation_trans
           (Permutation_flat_map g (Permutation_sym Hperm))).
  unfold dict_keys. rewrite flat_map_concat_map, map_map,
    <- flat_map_concat_map.
  simpl. rewrite (flat_map_ext_in
                    (fun kc => g (fst kc))
                    (fun kc => match fst kc with
                               | AStr s =>
                                   leaf_lines py_str (snd kc)
                                     (prefix ++ "|" ++ s)
                               | _ => []
                               end) ch); [apply Permutation_refl|].
  intros [k c] Hkc. unfold g. simpl.
  rewrite (unique_dict_get ch k c Hu Hkc). reflexivity.
Qed.

(** X16. On a diff whose keys are all strings, [print_diff] returns and
    writes one [DEBUG] line per leaf ([TypeDiff], [ValueDiff] or [Miss]):
    the keys on the way to the leaf, each after a ["|"], then [":"], the
    rendering of the leaf and a newline.  It writes nothing else, and no
    ["No diff found."]. *)
Theorem print_diff_writes_the_leaves (d : diff) (prefix : string)
  (log : records) :
  str_keys d = true ->
  exists out,
    print_diff py_str sorted (Some d) prefix log = (Ok tt, (log ++ out)%list)
    /\ Permutation out (leaf_lines py_str d prefix).
Proof. apply print_node_lines. Qed.

(** X17. The renderings tell the kinds of leaves apart: a [TypeDiff], a
    [ValueDiff], a [Miss] of the source and a [Miss] of the destination
    never compare equal ([__eq__]) to one another, whatever their values. *)
Theorem leaves_of_different_kinds_differ (a b c d v w : value) :
  diff_eq py_str sorted (TypeDiff a b) (ValueDiff c d) = Ok false
  /\ diff_eq py_str sorted (TypeDiff a b) (Miss "SOURCE" v) = Ok false
  /\ diff_eq py_str sorted (TypeDiff a b) (Miss "DESTINATION" v) = Ok false
  /\ diff_eq py_str sorted (ValueDiff c d) (Miss "SOURCE" v) = Ok false
  /\ diff_eq py_str sorted (ValueDiff c d) (Miss "DESTINATION" v) = Ok false
  /\ diff_eq py_str sorted (Miss "SOURCE" v) (Miss "DESTINATION" w) = Ok false.
Proof. repeat split. Qed.
End RenderFacts.

(** ** From the comparison to the printing *)

Lemma In_set_of (l : list atom) (x : atom) : In x (set_of l) -> In x l.
Proof.
  intros H. destruct (In_set_union l [] x H) as [[]|H']. exact H'.
Qed.

Lemma add_child_str_keys (ch ch' : list (atom * diff)) (key : atom) (c : diff) :
  is_str key = true -> str_keys c = true ->
  str_keys (DictDiff ch) = true ->
  add_child ch key c = Ok ch' -> str_keys (DictDiff ch') = true.
Proof.
  intros Hk Hc Hch. unfold add_child.
  destruct (dict_contains ch key) eqn:E; [discriminate|].
  intros H. injection H as <-. simpl in *.
  apply andb_true_iff in Hch. destruct Hch as [Hu Hall].
  rewrite (dict_setitem_unique _ _ _ Hu). simpl.
  rewrite (dict_setitem_fresh _ _ _ E), forallb_app, Hall. simpl.
  rewrite Hk, Hc. reflexivity.
Qed.

Lemma str_keyed_dict_get (s : list (atom * value)) (key : atom) (v : value) :
  str_keyed (VDict s) = true -> dict_get s key = Some v -> str_keyed v = true.
Proof.
  simpl. rewrite forallb_forall. intros H Hget.
  destruct (dict_get_In _ _ _ Hget) as [k [Hin _]].
  specialize (H _ Hin). apply andb_true_iff in H. apply H.
Qed.

Lemma str_keyed_key (s : list (atom * value)) (key : atom) :
  str_keyed (VDict s) = true -> In key (dict_keys s) -> is_str key = true.
Proof.
  simpl. rewrite forallb_forall. intros H Hin.
  apply in_map_iff in Hin. destruct Hin as [kv [<- Hkv]].
  specialize (H _ Hkv). apply andb_true_iff in H. apply H.
Qed.

Lemma diff_json_str_keys (s d : value) (r : diff) :
  str_keyed s = true -> str_keyed d = true ->
  diff_json s d = Ok (Some r) -> str_keys r = true.
Proof.
  revert d r.
  induction s as [a|s IH|s|l _] using value_nested_ind; intros d r Hs Hd H;
    (match type of H with
     | diff_json ?src _ = _ =>
         destruct (pytype_eqb (type_of src) (type_of d)) eqn:Ety;
         [|rewrite (diff_json_type _ _ Ety) in H; injection H as <-;
           reflexivity]
     end).
  - simpl in H, Ety. rewrite Ety in H. simpl in H.
    destruct (is_scalar_atom a); [|discriminate].
    match type of H with (if ?c then _ else _) = _ => destruct c end;
      [|discriminate].
    injection H as <-. reflexivity.
  - destruct d as [[]|d| |]; try discriminate Ety.
    rewrite diff_json_dict in H.
    destruct (for_each _ _ _) as [ch|e] eqn:Eloop; simpl in H; [|discriminate].
    injection H as H. rewrite (return_diff_DictDiff _ _ H).
    revert Eloop.
    apply (for_each_inv _ (fun c => str_keys (DictDiff c) = true));
      [|reflexivity].
    intros key c c' Hkey Hc.
    assert (Hstr : is_str key = true).
    { destruct (In_set_union _ _ _ Hkey) as [Hk|Hk]; apply In_set_of in Hk.
      - apply (str_keyed_key s); assumption.
      - apply (str_keyed_key d); assumption. }
    unfold diff_dict_key.
    destruct (negb (dict_contains s key)).
    { destruct (dict_getitem d key); simpl; [|discriminate].
      apply add_child_str_keys; auto. }
    destruct (negb (dict_contains d key)).
    { destruct (dict_getitem s key); simpl; [|discriminate].
      apply add_child_str_keys; auto. }
    unfold dict_getitem.
    destruct (dict_get s key) as [sv|] eqn:Es; simpl; [|discriminate].
    destruct (dict_get d key) as [dv|] eqn:Ed; simpl; [|discriminate].
    destruct (diff_json sv dv) as [[cd|]|] eqn:Ec; simpl; try discriminate.
    + apply add_child_str_keys; auto.
      destruct (dict_get_In _ _ _ Es) as [k [Hin _]].
      rewrite Forall_forall in IH. apply (IH _ Hin dv); [| |exact Ec].
      * apply (str_keyed_dict_get _ _ _ Hs Es).
      * apply (str_keyed_dict_get _ _ _ Hd Ed).
    + intros E. injection E as <-. exact Hc.
  - destruct d as [[]| |d|]; try discriminate Ety.
    rewrite diff_json_set in H.
    destruct (for_each _ _ _) as [ch|e] eqn:Eloop; simpl in H; [|discriminate].
    injection H as H. rewrite (return_diff_DictDiff _ _ H).
    revert Eloop.
    apply (for_each_inv _ (fun c => str_keys (DictDiff c) = true));
      [|reflexivity].
    intros key c c' Hkey Hc.
    assert (Hstr : is_str key = true).
    { simpl in Hs, Hd. rewrite forallb_forall in Hs, Hd.
      destruct (In_set_union _ _ _ Hkey) as [Hk|Hk]; auto. }
    unfold diff_set_key.
    destruct (negb (set_contains s key));
      [apply add_child_str_keys; auto|].
    destruct (negb (set_contains d key));
      [apply add_child_str_keys; auto|].
    intros E. injection E as <-. exact Hc.
  - simpl in H, Ety. rewrite Ety in H. discriminate.
Qed.

(** X18. When every key of a mapping and every element of a set in the two
    values is a string, every key of the diff that [diff_json] returns is a
    string, at any depth, and no [DictDiff] of it has a key twice. *)
Theorem diff_json_keeps_str_keys (source destination : value) (r : diff) :
  str_keyed source = true -> str_keyed destination = true ->
  diff_json source destination = Ok (Some r) ->
  str_keys r = true.
Proof. apply diff_json_str_keys. Qed.

Section Pipeline.
Variable py_str : value -> string.
Variable sorted : list atom -> result (list atom).
Hypothesis sorted_perm : forall l l', sorted l = Ok l' -> Permutation l l'.
Hypothesis sorted_strs :
  forall l, forallb is_str l = true -> exists l', sorted l = Ok l'.

(** X19. Comparing and printing run through on canonical values whose keys
    and set elements are strings: [diff_json] returns, and [print_diff] of
    its result returns too, after writing ["No diff found."] or the lines
    of the leaves. *)
Theorem diff_then_print_returns (source destination : value)
  (log : records) :
  canonical source = true -> canonical destination = true ->
  str_keyed source = true -> str_keyed destination = true ->
  exists r out,
    diff_json source destination = Ok r
    /\ print_diff py_str sorted r "" log = (Ok tt, (log ++ out)%list)
    /\ Permutation out
         match r with
         | Some d => leaf_lines py_str d ""
         | None => [(INFO, "No diff found.")]
         end.
Proof.
  intros Hcs Hcd Hs Hd.
  destruct (diff_json_canonical_ok _ _ Hcs Hcd) as [[d|] Hr].
  - destruct (print_node_lines py_str sorted sorted_perm sorted_strs d "" log
                (diff_json_str_keys _ _ _ Hs Hd Hr)) as [out [E P]].
    exists (Some d), out. auto.
  - exists None, [(INFO, "No diff found.")]. repeat split; auto.
Qed.
End Pipeline.

(** ** The sort of the examples *)

Lemma sorted_insert_perm (a : atom) (l l' : list atom) :
  sorted_insert a l = Ok l' -> Permutation (a :: l) l'.
Proof.
  revert l'. induction l as [|b rest IH]; intros l'; simpl.
  - intros H. injection H as <-. apply Permutation_refl.
  - destruct (atom_le a b) as [[|]|]; try discriminate.
    + intros H. injection H as <-. apply Permutation_refl.
    + destruct (sorted_insert a rest) as [r|e]; simpl; [|discriminate].
      intros H. injection H as <-.
      apply (Permutation_trans (perm_swap b a rest)).
      apply perm_skip, IH. reflexivity.
Qed.

Lemma sorted_simple_perm (l l' : list atom) :
  sorted_simple l = Ok l' -> Permutation l l'.
Proof.
  revert l'. induction l as [|a rest IH]; intros l'; simpl.
  - intros H. injection H as <-. apply Permutation_refl.
  - destruct (sorted_simple rest) as [r|e]; simpl; [|discriminate].
    intros H. apply (Permutation_trans (perm_skip a (IH r eq_refl))).
    apply sorted_insert_perm, H.
Qed.

Lemma sorted_insert_TypeError (a : atom) (l : list atom) (e : exn) :
  sorted_insert a l = Raise e -> e = TypeError.
Proof.
  induction l as [|b rest IH]; simpl; [discriminate|].
  destruct (atom_le a b) as [[|]|]; try discriminate.
  - destruct (sorted_insert a rest) as [r|e']; simpl; [discriminate|].
    intros H. injection H as <-. apply IH. reflexivity.
  - intros H. injection H as <-. reflexivity.
Qed.

Lemma sorted_simple_TypeError (l : list atom) (e : exn) :
  sorted_simple l = Raise e -> e = TypeError.
Proof.
  induction l as [|a rest IH]; simpl; [discriminate|].
  destruct (sorted_simple rest) as [r|e']; simpl.
  - apply sorted_insert_TypeError.
  - intros H. injection H as <-. apply IH. reflexivity.
Qed.

Lemma sorted_insert_strs (a : atom) (l : list atom) :
  is_str a = true -> forallb is_str l = true ->
  exists l', sorted_insert a l = Ok l' /\ forallb is_str l' = true.
Proof.
  intros Ha. induction l as [|b rest IH]; simpl.
  - intros _. exists [a]. simpl. rewrite Ha. auto.
  - rewrite andb_true_iff. intros [Hb Hrest].
    destruct a as [| | | |s]; try discriminate Ha.
    destruct b as [| | | |t]; try discriminate Hb. simpl.
    destruct (String.leb s t).
    + eexists. split; [reflexivity|]. simpl. exact Hrest.
    + destruct (IH Hrest) as [r [-> Hr]]. simpl.
      eexists. split; [reflexivity|]. simpl. exact Hr.
Qed.

Lemma sorted_simple_strs_all (l : list atom) :
  forallb is_str l = true ->
  exists l', sorted_simple l = Ok l' /\ forallb is_str l' = true.
Proof.
  induction l as [|a rest IH]; simpl.
  - intros _. exists []. auto.
  - rewrite andb_true_iff. intros [Ha Hrest].
    destruct (IH Hrest) as [r [-> Hr]]. simpl.
    apply sorted_insert_strs; assumption.
Qed.

Lemma sorted_simple_strs (l : list atom) :
  forallb is_str l = true -> exists l', sorted_simple l = Ok l'.
Proof.
  intros H. destruct (sorted_simple_strs_all l H) as [l' [E _]]. eauto.
Qed.

(** ** The further properties at concrete inputs *)

Lemma diff_json_set_classification_witness :
  canonical (VSet [AInt 1; AInt 2; AInt 3]) = true
  /\ canonical (VSet [AInt 2; AInt 3; AInt 4]) = true
  /\ exists r,
      diff_json (VSet [AInt 1; AInt 2; AInt 3]) (VSet [AInt 2; AInt 3; AInt 4])
      = Ok r
      /\ forall key,
          (set_contains [AInt 1; AInt 2; AInt 3] key = false ->
           set_contains [AInt 2; AInt 3; AInt 4] key = true ->
           exists e, In e [AInt 2; AInt 3; AInt 4] /\ key_eqb key e = true
                     /\ child_of r key = Some (Miss "SOURCE" (VAtom e)))
          /\ (set_contains [AInt 1; AInt 2; AInt 3] key = true ->
              set_contains [AInt 2; AInt 3; AInt 4] key = false ->
              exists e, In e [AInt 1; AInt 2; AInt 3] /\ key_eqb key e = true
                        /\ child_of r key
                           = Some (Miss "DESTINATION" (VAtom e)))
          /\ (set_contains [AInt 1; AInt 2; AInt 3] key
              = set_contains [AInt 2; AInt 3; AInt 4] key ->
              child_of r key = None).
Proof.
  split; [reflexivity|]. split; [reflexivity|].
  apply (diff_json_set_classification
           [AInt 1; AInt 2; AInt 3] [AInt 2; AInt 3; AInt 4]); reflexivity.
Defined.

Lemma diff_json_raises_only_NotImplementedError_witness :
  sets_unique (VDict [(AStr "a", VList [int 1])]) = true
  /\ ((exists r, diff_json (VDict [(AStr "a", VList [int 1])])
                   (VDict [(AStr "a", VList [int 1])]) = Ok r)
      \/ diff_json (VDict [(AStr "a", VList [int 1])])
           (VDict [(AStr "a", VList [int 1])])
         = Raise NotImplementedError).
Proof.
  split; [reflexivity|].
  apply (diff_json_raises_only_NotImplementedError
           (VDict [(AStr "a", VList [int 1])])
           (VDict [(AStr "a", VList [int 1])])).
  reflexivity.
Defined.

Lemma diff_json_None_iff_same_witness :
  canonical one_order = true /\ canonical other_order = true
  /\ (diff_json one_order other_order = Ok None
      <-> same_value one_order other_order = true).
Proof.
  split; [reflexivity|]. split; [reflexivity|].
  apply (diff_json_None_iff_same one_order other_order); reflexivity.
Defined.

Lemma diff_json_None_symmetric_witness :
  diff_json one_order other_order = Ok None
  /\ diff_json other_order one_order = Ok None.
Proof.
  split; [reflexivity|].
  apply (diff_json_None_symmetric one_order other_order); reflexivity.
Defined.

Lemma diff_json_Miss_mirrored_witness :
  child_of (Some (DictDiff [(AStr "a", Miss "DESTINATION" (int 1))])) (AStr "a")
  = Some (Miss "DESTINATION" (int 1))
  <-> child_of (Some (DictDiff [(AStr "a", Miss "SOURCE" (int 1))])) (AStr "a")
      = Some (Miss "SOURCE" (int 1)).
Proof.
  apply (diff_json_Miss_mirrored [(AStr "a", int 1)] []); reflexivity.
Defined.

Lemma prepare_diff_input_returns_prepared_witness :
  prepare_diff_input simple_str
    (VList [record 1 "x"; record 2 "y"; record 1 "z"]) (Some by_id) []
  = (Ok (VDict [(AInt 1, record 1 "x"); (AInt 2, record 2 "y")]),
     [duplicates_message simple_str (record 1 "z") (record 1 "x")])
  /\ prepared (VDict [(AInt 1, record 1 "x"); (AInt 2, record 2 "y")]) = true.
Proof.
  split; [reflexivity|].
  apply (prepare_diff_input_returns_prepared simple_str
           (VList [record 1 "x"; record 2 "y"; record 1 "z"])
           (VDict [(AInt 1, record 1 "x"); (AInt 2, record 2 "y")])
           (Some by_id) []
           [duplicates_message simple_str (record 1 "z") (record 1 "x")]).
  reflexivity.
Defined.

Lemma diff_json_returns_after_preparation_witness :
  exists r,
    diff_json (VDict [(AInt 1, record 1 "x"); (AInt 2, record 2 "y")])
      (VDict [(AInt 2, record 2 "y"); (AInt 3, record 3 "z")])
    = Ok r.
Proof.
  apply (diff_json_returns_after_preparation simple_str
           (VList [record 1 "x"; record 2 "y"])
           (VList [record 2 "y"; record 3 "z"])
           (VDict [(AInt 1, record 1 "x"); (AInt 2, record 2 "y")])
           (VDict [(AInt 2, record 2 "y"); (AInt 3, record 3 "z")])
           (Some by_id) (Some by_id) [] [] []); reflexivity.
Defined.

Lemma prepare_scalar_list_is_set_witness :
  exists s,
    prepare_diff_input simple_str (VList [int 3; int 1; int 2; int 1]) None []
    = (Ok (VSet s), [])
    /\ unique_keys s = true
    /\ forall k, set_contains s k = set_contains [AInt 3; AInt 1; AInt 2; AInt 1] k.
Proof.
  apply (prepare_scalar_list_is_set simple_str (AInt 3)
           [AInt 1; AInt 2; AInt 1] None []).
  reflexivity.
Defined.

Lemma prepare_scalar_list_unhashable_witness :
  prepare_diff_input simple_str (VList [int 1; int 2; VDict []]) None []
  = (Raise TypeError, []).
Proof.
  apply (prepare_scalar_list_unhashable simple_str (int 1) (VDict [])
           [int 2; VDict []] None []).
  - reflexivity.
  - right. left. reflexivity.
  - intros a. discriminate.
Defined.

Lemma prepare_list_unsupported_witness :
  prepare_diff_input simple_str (VList [VList [int 1]; VList [int 2]])
    (Some by_id) []
  = (Raise NotImplementedError, []).
Proof.
  apply (prepare_list_unsupported simple_str (VList [int 1]) [VList [int 2]]
           (Some by_id) []).
  - reflexivity.
  - discriminate.
Defined.

Lemma prepare_dict_drops_ignored_keys_witness :
  exists result,
    VDict [(AStr "a", int 1)] = VDict result
    /\ forall key,
        dict_contains result key
        = dict_contains [(AStr "a", int 1); (AStr "b", int 2)] key
          && negb (ignored
                     (Some (DiffConfig_init (One ANone) (Some [AStr "b"]) None))
                     key).
Proof.
  apply (prepare_dict_drops_ignored_keys simple_str
           [(AStr "a", int 1); (AStr "b", int 2)]
           (Some (DiffConfig_init (One ANone) (Some [AStr "b"]) None))
           [] [] (VDict [(AStr "a", int 1)])).
  reflexivity.
Defined.

Lemma prepare_plain_identity_witness :
  plain nested_plain = true
  /\ prepare_diff_input simple_str nested_plain None [] = (Ok nested_plain, []).
Proof.
  split; [reflexivity|].
  apply (prepare_plain_identity simple_str nested_plain []). reflexivity.
Defined.

Lemma prepare_only_appends_duplicates_witness :
  log_extends simple_str []
    [duplicates_message simple_str (record 1 "z") (record 1 "x")].
Proof.
  apply (prepare_only_appends_duplicates simple_str
           (VList [record 1 "x"; record 2 "y"; record 1 "z"]) (Some by_id) []
           [duplicates_message simple_str (record 1 "z") (record 1 "x")]
           (Ok (VDict [(AInt 1, record 1 "x"); (AInt 2, record 2 "y")]))).
  reflexivity.
Defined.

Lemma unmatched_record_gets_None_key_witness :
  prepare_diff_input simple_str
    (VList [VDict [(AStr "v", str "x")]; VDict [(AStr "v", str "y")]])
    (Some by_id) []
  = (Ok (VDict [(ANone, VDict [(AStr "v", str "x")])]),
     [duplicates_message simple_str (VDict [(AStr "v", str "y")])
        (VDict [(AStr "v", str "x")])]).
Proof.
  apply (unmatched_record_gets_None_key simple_str by_id [AStr "id"]
           [(AStr "v", str "x")] [(ANone, VDict [(AStr "v", str "x")])]
           [(AStr "v", str "y")]
           [VDict [(AStr "v", str "x")]] [VDict [(AStr "v", str "y")]]
           (VDict [(AStr "v", str "y")]) [] [] []).
  - reflexivity.
  - reflexivity.
  - reflexivity.
  - reflexivity.
  - reflexivity.
  - intros c [<-|[]]. reflexivity.
Defined.

Lemma print_diff_TypeError_on_non_str_key_witness :
  diff_json (VSet [AInt 1; AInt 2; AInt 3]) (VSet [AInt 2; AInt 3; AInt 4])
  = Ok (Some (DictDiff number_set_children))
  /\ exists log',
      print_diff simple_str sorted_simple
        (Some (DictDiff number_set_children)) "" []
      = (Raise TypeError, log').
Proof.
  split; [reflexivity|].
  apply (print_diff_TypeError_on_non_str_key simple_str sorted_simple
           sorted_simple_perm sorted_simple_TypeError
           number_set_children (AInt 1) "" []).
  - left. reflexivity.
  - reflexivity.
Defined.

Lemma print_diff_writes_the_leaves_witness :
  str_keys left_right_diff = true
  /\ exists out,
      print_diff simple_str sorted_simple (Some left_right_diff) "" []
      = (Ok tt, ([] ++ out)%list)
      /\ Permutation out (leaf_lines simple_str left_right_diff "").
Proof.
  split; [reflexivity|].
  apply (print_diff_writes_the_leaves simple_str sorted_simple
           sorted_simple_perm sorted_simple_strs left_right_diff "" []).
  reflexivity.
Defined.

Lemma diff_json_keeps_str_keys_witness :
  diff_json (VDict left_items) (VDict right_items) = Ok (Some left_right_diff)
  /\ str_keys left_right_diff = true.
Proof.
  split; [reflexivity|].
  apply (diff_json_keeps_str_keys (VDict left_items) (VDict right_items)
           left_right_diff); reflexivity.
Defined.

Lemma diff_then_print_returns_witness :
  exists r out,
    diff_json (VDict left_items) (VDict right_items) = Ok r
    /\ print_diff simple_str sorted_simple r "" [] = (Ok tt, ([] ++ out)%list)
    /\ Permutation out
         match r with
         | Some d => leaf_lines simple_str d ""
         | None => [(INFO, "No diff found.")]
         end.
Proof.
  apply (diff_then_print_returns simple_str sorted_simple
           sorted_simple_perm sorted_simple_strs
           (VDict left_items) (VDict right_items) []); reflexivity.
Defined.

(** ** Examples of the printing *)

Example print_left_right :
  print_diff simple_str sorted_simple (Some left_right_diff) "" []
  = (Ok tt,
     [(DEBUG, "|a:MISS_DESTINATION:" ++ newline ++ "< 1" ++ newline);
      (DEBUG, "|b|c:VALUE_MISMATCH:" ++ newline ++ "< 2" ++ newline ++ "---"
                ++ newline ++ "> 3" ++ newline);
      (DEBUG, "|z:MISS_SOURCE:" ++ newline ++ "> w" ++ newline)]).
Proof. reflexivity. Qed.

Example print_no_diff :
  print_diff simple_str sorted_simple None "" [] = (Ok tt, [(INFO, "No diff found.")]).
Proof. reflexivity. Qed.

Example render_type_diff :
  diff_str simple_str sorted_simple (TypeDiff (int 1) (str "a"))
  = Ok ("TYPE_MISMATCH:" ++ newline ++ "< <class 'int'>':'1" ++ newline
          ++ "---" ++ newline ++ "> <class 'str'>':'a").
Proof. reflexivity. Qed.
